(** * Reward distribution server: batch orchestrator, configuration and
      connection bootstrap of [src/server.js]

    The development embeds these functions of [src/server.js]:
    - [getConfig] (lines 46-89): numeric validation of PORT and BATCH_SIZE;
    - [initializeWeb3] (lines 481-550): connection attempts with retry and
      exponential backoff;
    - [distributeRewardsInBatches] (lines 553-715): the batch loop, its
      counters, its failure list and its summary;
    - [loadEnvConfig] (lines 12-41) and the reading of its result by
      [parseInt] (lines 43-55);
    - the globals assigned by [initializeWeb3] and the start of
      [startServer] (lines 479, 499-508, 998-1010);
    - the handlers of [POST /distribute-now], [POST /trigger-distribution]
      and [GET /user-rewards/:address] (lines 718-797, 840-888).

    Modelling conventions.
    - JavaScript numbers and BigInts that hold integers are values of [Z].
      [Number(totalUsers)] is the identity: the model covers the range in
      which that conversion is exact (up to Number.MAX_SAFE_INTEGER).
      BigInt division truncates towards zero and is [Z.quot].
    - A promise awaited by the code is given by how it settles ([settle]);
      [Pending] stands for a promise that does not settle before the timer it
      is raced against.
    - Exceptions are explicit ([completion]); mutable locals and the calls
      issued to the remote contract are threaded through a state
      ([run_state]), so a [try]/[catch] keeps the effects made before the
      throw, as in JavaScript. *)

From Stdlib Require Import ZArith List String Ascii Bool Lia Arith.
From Stdlib Require Import DecimalString DecimalPos.
From Equations Require Import Equations.
Import ListNotations.

Local Open Scope string_scope.
Local Open Scope Z_scope.

Set Implicit Arguments.

(* ===================================================================== *)
(** ** JavaScript values used by the code *)
(* ===================================================================== *)

(** Normal or abrupt completion of a piece of code; the payload of [Throw]
    is [error.message]. *)
Inductive completion (A : Type) : Type :=
| Normal (a : A)
| Throw (message : string).
Arguments Normal {A} a.
Arguments Throw {A} message.

(** How an awaited promise settles. *)
Inductive settle (A : Type) : Type :=
| Resolved (a : A)
| Rejected (message : string)
| Pending.
Arguments Resolved {A} a.
Arguments Rejected {A} message.
Arguments Pending {A}.

(** [await Promise.race([p, new Promise((_, reject) => setTimeout(() =>
    reject(new Error(timeoutMessage)), ms))])]. *)
Definition race_timeout {A} (p : settle A) (timeoutMessage : string)
  : completion A :=
  match p with
  | Resolved a => Normal a
  | Rejected m => Throw m
  | Pending => Throw timeoutMessage
  end.

(** The result of [parseInt]. *)
Inductive js_number : Type :=
| NaN
| Num (z : Z).

(** [n || d] for a number [n]: NaN and 0 are falsy. *)
Definition or_default (n : js_number) (d : Z) : Z :=
  match n with
  | NaN => d
  | Num 0 => d
  | Num z => z
  end.

(** [Math.ceil(a / b)] for integers [a] and [b <> 0]. *)
Definition Math_ceil_div (a b : Z) : Z := - ((- a) / b).

(** Template-literal conversion of an integer. *)
Definition toString (z : Z) : string := NilZero.string_of_int (Z.to_int z).

(* ===================================================================== *)
(** ** Configuration: [getConfig] *)
(* ===================================================================== *)

Module Config.

Record config : Type := mkConfig {
  PORT : Z;
  BATCH_SIZE : Z;
  warnings : list string
}.

(** The body of the [try] block, lines 48-76; [parsedPort] and
    [parsedBatchSize] are [parseInt(config.PORT)] and
    [parseInt(config.BATCH_SIZE)]. *)
Definition validate (parsedPort parsedBatchSize : js_number)
  : completion config :=
  let PORT0 := or_default parsedPort 3001 in
  let BATCH_SIZE0 := or_default parsedBatchSize 100 in
  let '(PORT1, w1) :=
    if (PORT0 <? 1) || (PORT0 >? 65535)
    then (3001, ["Invalid PORT: " ++ toString PORT0
                   ++ ". Using default port 3001"])
    else (PORT0, []) in
  let '(BATCH_SIZE1, w2) :=
    if (BATCH_SIZE0 <? 1) || (BATCH_SIZE0 >? 1000)
    then (100, ["Invalid BATCH_SIZE: " ++ toString BATCH_SIZE0
                  ++ ". Using default batch size 100"])
    else (BATCH_SIZE0, []) in
  Normal (mkConfig PORT1 BATCH_SIZE1 (w1 ++ w2)%list).

(** [getConfig], with its [catch] returning the defaults. *)
Definition getConfig (parsedPort parsedBatchSize : js_number)
  : completion config :=
  match validate parsedPort parsedBatchSize with
  | Normal c => Normal c
  | Throw _ => Normal (mkConfig 3001 100 [])
  end.

End Config.

(* ===================================================================== *)
(** ** Connection bootstrap: [initializeWeb3] *)
(* ===================================================================== *)

Module Bootstrap.

(** What one pass through the [try] block meets, lines 499-528.
    [provider.getNetwork()] is awaited without a timer, so it is given by a
    completion: the model covers the attempts that settle. *)
Record attempt_env : Type := mkAttempt {
  getNetwork : completion string;      (* await provider.getNetwork() *)
  new_Wallet : completion string;      (* new ethers.Wallet(...): address *)
  owner : settle string                (* contract.owner(), raced, 10 s *)
}.

Inductive event : Type :=
| EvAttempt (retryCount : nat)         (* the attempt is started *)
| EvWarnNotOwner
| EvSleep (ms : Z).                    (* setTimeout(resolve, delay): the
                                         delay asked for, see [Timer] *)

(** [c.toLowerCase()] for a code unit below 256: the letters A-Z and the
    accented capitals 192-222 (but not the sign 215) move up by 32. *)
Definition lower (c : ascii) : ascii :=
  let n := Z.of_N (N_of_ascii c) in
  if ((65 <=? n) && (n <=? 90))
     || ((192 <=? n) && (n <=? 222) && negb (n =? 215))
  then ascii_of_N (N_of_ascii c + 32)
  else c.

(** [s.toLowerCase()] *)
Fixpoint toLowerCase (s : string) : string :=
  match s with
  | EmptyString => EmptyString
  | String c s' => String (lower c) (toLowerCase s')
  end.

(** The [try] block once the key check has passed; the value is whether
    the wallet is the owner of the contract, both addresses compared in
    lower case (line 524). *)
Definition connect (a : attempt_env) : completion bool :=
  match getNetwork a with
  | Throw m => Throw m
  | Normal _ =>
      match new_Wallet a with
      | Throw m => Throw m
      | Normal address =>
          match race_timeout (owner a) "Contract call timeout" with
          | Throw m => Throw m
          | Normal o =>
              Normal (String.eqb (toLowerCase o) (toLowerCase address))
          end
      end
  end.

(** [!PRIVATE_KEY || PRIVATE_KEY === "your_private_key_here"]. *)
Definition key_missing (PRIVATE_KEY : option string) : bool :=
  match PRIVATE_KEY with
  | None => true
  | Some k => String.eqb k "" || String.eqb k "your_private_key_here"
  end.

Section Retry.
Variable PRIVATE_KEY : option string.
(** The environment met by the attempt numbered [retryCount]. *)
Variable env : nat -> attempt_env.

(** [initializeWeb3(retryCount, maxRetries)]: the returned boolean and
    the events in the order they happen. *)
Equations? initializeWeb3 (retryCount maxRetries : nat)
  : bool * list event by wf (maxRetries - retryCount)%nat lt :=
  initializeWeb3 retryCount maxRetries with key_missing PRIVATE_KEY => {
    | true := (false, []);
    | false with connect (env retryCount) => {
      | Normal isOwner :=
          (true, EvAttempt retryCount
                   :: if isOwner then [] else [EvWarnNotOwner]);
      | Throw _ with lt_dec retryCount maxRetries => {
        | left _ :=
            let delay := 2 ^ Z.of_nat retryCount * 1000 in
            let r := initializeWeb3 (S retryCount) maxRetries in
            (fst r, EvAttempt retryCount :: EvSleep delay :: snd r);
        | right _ := (false, [EvAttempt retryCount])
        }
      }
    }.
Proof. lia. Qed.

(** The call made by [startServer]: default arguments. *)
Definition initializeWeb3_default : bool * list event :=
  initializeWeb3 0 3.

End Retry.

Definition attempts (evs : list event) : list nat :=
  flat_map (fun e => match e with EvAttempt k => [k] | _ => [] end) evs.

Definition sleeps (evs : list event) : list Z :=
  flat_map (fun e => match e with EvSleep d => [d] | _ => [] end) evs.

Definition total_sleep (evs : list event) : Z :=
  fold_right Z.add 0 (sleeps evs).

(** The attempts and the waits, without the warnings. *)
Definition schedule_of (evs : list event) : list event :=
  filter (fun e => match e with EvWarnNotOwner => false | _ => true end) evs.

(** The longest schedule the default arguments allow. *)
Definition full_schedule : list event :=
  [EvAttempt 0; EvSleep (2 ^ 0 * 1000);
   EvAttempt 1; EvSleep (2 ^ 1 * 1000);
   EvAttempt 2; EvSleep (2 ^ 2 * 1000);
   EvAttempt 3].

End Bootstrap.

(* ===================================================================== *)
(** ** The batch orchestrator: [distributeRewardsInBatches] *)
(* ===================================================================== *)

Module Orchestrator.

(** *** The remote contract, as the code consumes it *)

Record receipt : Type := mkReceipt {
  status : Z;
  blockNumber : Z
}.

(** A submitted transaction: [tx.hash] and how [tx.wait()] settles
    ([None] is a [null] receipt). *)
Record transaction : Type := mkTx {
  hash : string;
  wait : settle (option receipt)
}.

Record contract_api : Type := mkContract {
  getUSersLengh : settle Z;
  (* contract.distributeRewardsToAll.estimateGas(startIndex, endIndex) *)
  estimateGas : Z -> Z -> settle Z;
  (* contract.distributeRewardsToAll(startIndex, endIndex, {gasLimit}) *)
  distributeRewardsToAll : Z -> Z -> Z -> settle transaction
}.

(** The module-level [provider], [wallet] and [contract]. *)
Record globals : Type := mkGlobals {
  provider : bool;
  wallet : bool;
  contract : option contract_api
}.

(** *** What a run returns and what it does *)

(** An entry of [failedBatches]: [{ batch, error }]. *)
Record failed_batch : Type := mkFailed {
  batch : Z;
  error : string
}.

Record summary : Type := mkSummary {
  success : bool;
  totalBatches : Z;
  successCount : Z;
  failureCount : Z;
  failedBatches : list failed_batch;
  message : string
}.

(** The three shapes of object returned by the function. *)
Inductive run_result : Type :=
| NoUsers                              (* { success: true, message } *)
| Summary (s : summary)
| Fatal (error : string).              (* { success: false, error, message } *)

Definition result_success (r : run_result) : bool :=
  match r with
  | NoUsers => true
  | Summary s => success s
  | Fatal _ => false
  end.

(** The branch taken by the closing log, lines 698-704. *)
Inductive run_status : Type :=
| AllSucceeded
| PartialSuccess
| AllFailed.

Inductive event : Type :=
| EvGetUsersLength
| EvEstimateGas (startIndex endIndex : Z)
| EvSubmit (startIndex endIndex gasLimit : Z)
| EvWait (txHash : string)
| EvSleep (ms : Z)
| EvLogStatus (s : run_status).

(** The mutable locals of the function and the calls made so far. *)
Record run_state : Type := mkState {
  st_successCount : Z;
  st_failureCount : Z;
  st_failedBatches : list failed_batch;
  trace : list event
}.

Definition initial : run_state := mkState 0 0 [] [].

(** *** State and exception monad *)

Definition M (A : Type) : Type := run_state -> completion A * run_state.

Definition ret {A} (a : A) : M A := fun s => (Normal a, s).

Definition throw {A} (m : string) : M A := fun s => (Throw m, s).

Definition bind {A B} (c : M A) (k : A -> M B) : M B :=
  fun s =>
    match c s with
    | (Normal a, s') => k a s'
    | (Throw m, s') => (Throw m, s')
    end.

(** [try { c } catch (error) { h error.message }]. *)
Definition try_catch {A} (c : M A) (h : string -> M A) : M A :=
  fun s =>
    match c s with
    | (Normal a, s') => (Normal a, s')
    | (Throw m, s') => h m s'
    end.

Definition lift {A} (c : completion A) : M A := fun s => (c, s).

Definition emit (e : event) : M unit :=
  fun s => (Normal tt,
            mkState (st_successCount s) (st_failureCount s)
                    (st_failedBatches s) (trace s ++ [e])).

(** [successCount++] *)
Definition incr_success : M unit :=
  fun s => (Normal tt,
            mkState (st_successCount s + 1) (st_failureCount s)
                    (st_failedBatches s) (trace s)).

(** [failureCount++] *)
Definition incr_failure : M unit :=
  fun s => (Normal tt,
            mkState (st_successCount s) (st_failureCount s + 1)
                    (st_failedBatches s) (trace s)).

(** [failedBatches.push(f)] *)
Definition push_failed (f : failed_batch) : M unit :=
  fun s => (Normal tt,
            mkState (st_successCount s) (st_failureCount s)
                    (st_failedBatches s ++ [f]) (trace s)).

Definition get : M run_state := fun s => (Normal s, s).

Declare Scope monad_scope.
Delimit Scope monad_scope with monad.
Notation "x <- c ;; k" := (bind c (fun x => k))
  (at level 61, c at next level, right associativity) : monad_scope.
Notation "c ;; k" := (bind c (fun _ => k))
  (at level 61, right associativity) : monad_scope.
Local Open Scope monad_scope.

(** [for (const x of l) body(x)], without [break]. *)
Fixpoint for_each {A} (l : list A) (body : A -> M unit) : M unit :=
  match l with
  | [] => ret tt
  | x :: l' => body x ;; for_each l' body
  end.

(** The values taken by [batchIndex] in
    [for (batchIndex = 0; batchIndex < totalBatches; batchIndex++)]. *)
Definition batch_indices (totalBatches : Z) : list Z :=
  map Z.of_nat (seq 0 (Z.to_nat totalBatches)).

Section Run.
Variable BATCH_SIZE : Z.
Variable g : globals.

(** Line 586. *)
Definition total_batches (totalUsers : Z) : Z :=
  Math_ceil_div totalUsers BATCH_SIZE.

(** Lines 596-600. *)
Definition startIndex (batchIndex : Z) : Z := batchIndex * BATCH_SIZE.

Definition endIndex (totalUsers batchIndex : Z) : Z :=
  Z.min (startIndex batchIndex + BATCH_SIZE - 1) (totalUsers - 1).

Definition batch_range (totalUsers batchIndex : Z) : Z * Z :=
  (startIndex batchIndex, endIndex totalUsers batchIndex).

(** The ranges the loop goes through, in order. *)
Definition batch_ranges (totalUsers : Z) : list (Z * Z) :=
  map (batch_range totalUsers) (batch_indices (total_batches totalUsers)).

(** Lines 631: the gas limit passed with the transaction. *)
Definition gas_limit (gasEstimate : Z) : Z :=
  Z.quot (gasEstimate * 120) 100.

(** Lines 698-704. *)
Definition log_status (successCount totalBatches : Z) : run_status :=
  if successCount =? totalBatches then AllSucceeded
  else if successCount >? 0 then PartialSuccess
  else AllFailed.

(** One iteration of the loop, lines 596-679. *)
Definition process_batch (c : contract_api) (totalUsers totalBatches : Z)
           (batchIndex : Z) : M unit :=
  let startIndex := startIndex batchIndex in
  let endIndex := endIndex totalUsers batchIndex in
  try_catch
    (* Gas Estimation, in its own try/catch *)
    (emit (EvEstimateGas startIndex endIndex) ;;
     match race_timeout (estimateGas c startIndex endIndex)
                        "Gas estimation timeout" with
     | Throw gasError =>
         push_failed (mkFailed (batchIndex + 1) gasError) ;;
         incr_failure                                  (* continue *)
     | Normal gasEstimate =>
         (* Transaction Submission *)
         emit (EvSubmit startIndex endIndex (gas_limit gasEstimate)) ;;
         tx <- lift (race_timeout
                       (distributeRewardsToAll c startIndex endIndex
                                               (gas_limit gasEstimate))
                       "Transaction submission timeout") ;;
         (* Transaction Confirmation *)
         emit (EvWait (hash tx)) ;;
         receipt <- lift (race_timeout (wait tx)
                            "Transaction confirmation timeout") ;;
         match receipt with
         | None =>
             throw "Cannot read properties of null (reading 'blockNumber')"
         | Some receipt =>
             (if status receipt =? 1
              then incr_success
              else push_failed (mkFailed (batchIndex + 1)
                                         "Transaction failed") ;;
                   incr_failure) ;;
             (* Rate Limiting *)
             if batchIndex <? totalBatches - 1
             then emit (EvSleep 5000)
             else ret tt
         end
     end)
    (fun error =>
       incr_failure ;;
       push_failed (mkFailed (batchIndex + 1) error)).  (* continue *)

(** The body of the outer [try], lines 555-706. *)
Definition run_body : M run_result :=
  match provider g, contract g, wallet g with
  | true, Some c, true =>
      emit EvGetUsersLength ;;
      totalUsers <-
        try_catch
          (lift (race_timeout (getUSersLengh c) "Contract call timeout"))
          (fun contractError =>
             throw ("Contract connection failed: " ++ contractError)) ;;
      if totalUsers =? 0 then ret NoUsers
      else
        let totalBatches := total_batches totalUsers in
        for_each (batch_indices totalBatches)
                 (process_batch c totalUsers totalBatches) ;;
        s <- get ;;
        emit (EvLogStatus (log_status (st_successCount s) totalBatches)) ;;
        ret (Summary
               (mkSummary (st_successCount s >? 0)
                          totalBatches
                          (st_successCount s)
                          (st_failureCount s)
                          (st_failedBatches s)
                          (toString (st_successCount s) ++ "/"
                             ++ toString totalBatches
                             ++ " batches completed successfully")))
  | _, _, _ =>
      throw "Web3 not initialized. Cannot proceed with distribution."
  end.

(** [distributeRewardsInBatches()]: its completion and the state left
    behind, starting from fresh locals. *)
Definition distributeRewardsInBatches : completion run_result * run_state :=
  try_catch run_body (fun error => ret (Fatal error)) initial.

End Run.

End Orchestrator.

(* ===================================================================== *)
(** ** Notions used to state the properties *)
(* ===================================================================== *)

(** [tiles lo rs hi]: the inclusive ranges [rs], in order, are non-empty,
    each starts one past the end of the previous one, the first starts at
    [lo] and the last ends at [hi]; with no range at all, [lo] is already
    past [hi]. *)
Fixpoint tiles (lo : Z) (rs : list (Z * Z)) (hi : Z) : Prop :=
  match rs with
  | [] => lo = hi + 1
  | (s, e) :: rs' => s = lo /\ s <= e /\ tiles (e + 1) rs' hi
  end.

(** Membership of an index in an inclusive range. *)
Definition in_range (k : Z) (r : Z * Z) : Prop := fst r <= k <= snd r.

(** The cost ceiling in the words of the specification:
    [ceil(estimatedCost * 1.20)]. *)
Definition spec_cost_ceiling (estimatedCost : Z) : Z :=
  Math_ceil_div (estimatedCost * 120) 100.

Module Outcome.
Import Orchestrator.

(** The outcome of one batch, read off the answers of the contract. *)
Inductive outcome : Type :=
| Success
| Failed (reason : string).

Definition is_success (o : outcome) : bool :=
  match o with Success => true | Failed _ => false end.

Definition is_failed (o : outcome) : bool := negb (is_success o).

Section Batch.
Variable BATCH_SIZE : Z.
Variable c : contract_api.
Variable totalUsers : Z.

Definition batch_outcome (batchIndex : Z) : outcome :=
  let s := startIndex BATCH_SIZE batchIndex in
  let e := endIndex BATCH_SIZE totalUsers batchIndex in
  match race_timeout (estimateGas c s e) "Gas estimation timeout" with
  | Throw m => Failed m
  | Normal gasEstimate =>
      match race_timeout
              (distributeRewardsToAll c s e (gas_limit gasEstimate))
              "Transaction submission timeout" with
      | Throw m => Failed m
      | Normal tx =>
          match race_timeout (wait tx)
                             "Transaction confirmation timeout" with
          | Throw m => Failed m
          | Normal None =>
              Failed "Cannot read properties of null (reading 'blockNumber')"
          | Normal (Some r) =>
              if status r =? 1 then Success
              else Failed "Transaction failed"
          end
      end
  end.

(** The entries a list of batches leaves in [failedBatches]. *)
Definition failures_of (indices : list Z) : list failed_batch :=
  flat_map (fun i => match batch_outcome i with
                     | Success => []
                     | Failed m => [mkFailed (i + 1) m]
                     end) indices.

Definition count_success (indices : list Z) : Z :=
  Z.of_nat (List.length (filter (fun i => is_success (batch_outcome i)) indices)).

Definition count_failed (indices : list Z) : Z :=
  Z.of_nat (List.length (filter (fun i => is_failed (batch_outcome i)) indices)).

(** What one batch, run on its own from fresh locals, leaves behind. *)
Definition batch_effect (totalBatches batchIndex : Z) : run_state :=
  snd (process_batch BATCH_SIZE c totalUsers totalBatches batchIndex
                     initial).
End Batch.

(** Adding the effect [d] of a piece of code to the state [s]. *)
Definition combine (s d : run_state) : run_state :=
  mkState (st_successCount s + st_successCount d)
          (st_failureCount s + st_failureCount d)
          (st_failedBatches s ++ st_failedBatches d)%list
          (trace s ++ trace d)%list.

(** The state after the batches [l], run one after the other from [s]. *)
Definition after (BATCH_SIZE : Z) (c : contract_api)
           (totalUsers totalBatches : Z) (l : list Z) (s : run_state)
  : run_state :=
  fold_left combine
            (map (batch_effect BATCH_SIZE c totalUsers totalBatches) l) s.

Definition submits_for (startIndex : Z) (evs : list event) : list event :=
  filter (fun e => match e with
                   | EvSubmit s _ _ => s =? startIndex
                   | _ => false
                   end) evs.

(** The ranges for which a gas estimation was asked, in order. *)
Definition estimates (evs : list event) : list (Z * Z) :=
  flat_map (fun e => match e with
                     | EvEstimateGas s e => [(s, e)]
                     | _ => []
                     end) evs.

End Outcome.

(** Concrete contracts and connections used to exercise the model. *)
Module Scenario.
Import Orchestrator.

(** A transaction that is mined in block 7 with status 1. *)
Definition confirmed : transaction :=
  mkTx "0xabc" (Resolved (Some (mkReceipt 1 7))).

(** A contract with [users] users: gas estimation is rejected for the
    range that starts at [bad] and gives 21001 for any other range; every
    submission is accepted and confirmed. *)
Definition contract_rejecting (users bad : Z) : contract_api :=
  mkContract (Resolved users)
             (fun s _ => if s =? bad then Rejected "execution reverted"
                         else Resolved 21001)
             (fun _ _ _ => Resolved confirmed).

(** A contract whose user count cannot be read. *)
Definition contract_unreachable : contract_api :=
  mkContract Pending (fun _ _ => Pending) (fun _ _ _ => Pending).

Definition connected (c : contract_api) : globals :=
  mkGlobals true true (Some c).

Definition disconnected : globals := mkGlobals false false None.
End Scenario.

(* ===================================================================== *)
(** ** The configuration file: [loadEnvConfig] and [parseInt] *)
(* ===================================================================== *)

(** Strings are sequences of code units below 256. *)
Module EnvFile.

(** White space and line terminators removed by [String.prototype.trim]
    and skipped by [parseInt], among the code units below 256: TAB, LF, VT,
    FF, CR, SP and NBSP. *)
Definition is_space (c : ascii) : bool :=
  let n := Z.of_N (N_of_ascii c) in
  ((9 <=? n) && (n <=? 13)) || (n =? 32) || (n =? 160).

Fixpoint trim_start (s : string) : string :=
  match s with
  | EmptyString => EmptyString
  | String c s' => if is_space c then trim_start s' else s
  end.

Fixpoint trim_end (s : string) : string :=
  match s with
  | EmptyString => EmptyString
  | String c s' =>
      match trim_end s' with
      | EmptyString => if is_space c then EmptyString else String c EmptyString
      | t => String c t
      end
  end.

(** [s.trim()] *)
Definition trim (s : string) : string := trim_end (trim_start s).

(** [s.split(sep)] for a separator of one code unit: the pieces between the
    separators, in order; always at least one piece. *)
Fixpoint split (sep : ascii) (s : string) : list string :=
  match s with
  | EmptyString => [EmptyString]
  | String c s' =>
      if Ascii.eqb c sep then EmptyString :: split sep s'
      else match split sep s' with
           | piece :: rest => String c piece :: rest
           | [] => [String c EmptyString]
           end
  end.

(** Whether the code unit [c] occurs in [s]. *)
Fixpoint occurs (c : ascii) (s : string) : bool :=
  match s with
  | EmptyString => false
  | String c' s' => Ascii.eqb c' c || occurs c s'
  end.

(** Whether every code unit of [s] satisfies [p]. *)
Fixpoint all_chars (p : ascii -> bool) (s : string) : bool :=
  match s with
  | EmptyString => true
  | String c s' => p c && all_chars p s'
  end.

(** A string that does not start with white space. *)
Definition starts_clean (s : string) : Prop :=
  match s with
  | EmptyString => True
  | String c _ => is_space c = false
  end.

(** The part of [s] before the first occurrence of [sep]. *)
Fixpoint up_to (sep : ascii) (s : string) : string :=
  match s with
  | EmptyString => EmptyString
  | String c s' => if Ascii.eqb c sep then EmptyString
                   else String c (up_to sep s')
  end.

(** Trimmed, and free of ["="] and of line feeds. *)
Definition clean (s : string) : Prop :=
  trim s = s /\ occurs "=" s = false /\ occurs "010" s = false.

(** Truthiness of a string. *)
Definition truthy (s : string) : bool :=
  match s with EmptyString => false | _ => true end.

(** The object [envVars]: the own properties, most recent assignment
    first. *)
Definition env_vars : Type := list (string * string).

(** [envVars[key] = value] on a plain object: the key ["__proto__"] reaches
    the prototype setter, which ignores a string, so no property is made. *)
Definition assign (key value : string) (envVars : env_vars) : env_vars :=
  if String.eqb key "__proto__" then envVars else (key, value) :: envVars.

(** [envVars.key] for a key that is not a property of [Object.prototype]
    ([PORT], [BATCH_SIZE], ...): [None] is [undefined]. *)
Fixpoint lookup (key : string) (envVars : env_vars) : option string :=
  match envVars with
  | [] => None
  | (k, v) :: rest => if String.eqb k key then Some v else lookup key rest
  end.

(** The callback of [forEach], lines 19-29: [const [key, value] =
    line.split("=")], then the assignment when both are truthy. *)
Definition parse_line (envVars : env_vars) (line : string) : env_vars :=
  match split "=" line with
  | key :: value :: _ =>
      if truthy key && truthy value
      then assign (trim key) (trim value) envVars
      else envVars
  | _ => envVars
  end.

(** What [fs.existsSync] and [fs.readFileSync] find at [config.env]. *)
Inductive file_read : Type :=
| NoFile
| ReadFails (message : string)
| Content (text : string).

(** A line written to the console, with its text less the leading
    pictograph. *)
Inductive console_line : Type :=
| ConsoleLog (text : string)
| ConsoleWarn (text : string)
| ConsoleError (text : string).

(** [loadEnvConfig()], lines 12-41: the object returned and what is
    written to the console. The [catch] around the body of [forEach] is
    never entered: [split] and [trim] do not throw on strings. *)
Definition loadEnvConfig_logged (f : file_read)
  : env_vars * list console_line :=
  match f with
  | Content envContent =>
      (fold_left parse_line (split "010" envContent) [],
       [ConsoleLog "Environment configuration loaded successfully"])
  | NoFile =>
      ([], [ConsoleWarn "Warning: config.env file not found, using defaults"])
  | ReadFails message =>
      ([], [ConsoleError ("Error loading environment configuration: "
                            ++ message);
            ConsoleLog "Using default configuration values"])
  end.

(** The object returned by [loadEnvConfig()]. *)
Definition loadEnvConfig (f : file_read) : env_vars :=
  fst (loadEnvConfig_logged f).

(** The value of a digit or letter as a digit. *)
Definition digit_of (c : ascii) : option Z :=
  let n := Z.of_N (N_of_ascii c) in
  if (48 <=? n) && (n <=? 57) then Some (n - 48)
  else if (97 <=? n) && (n <=? 122) then Some (n - 87)
  else if (65 <=? n) && (n <=? 90) then Some (n - 55)
  else None.

(** The value of the longest prefix of [s] made of digits of the radix,
    continuing from [acc]; [None] while no digit has been read. *)
Fixpoint parse_digits (radix : Z) (s : string) (acc : option Z) : option Z :=
  match s with
  | EmptyString => acc
  | String c s' =>
      match digit_of c with
      | Some d =>
          if d <? radix
          then parse_digits radix s'
                 (Some (match acc with None => d | Some a => a * radix + d end))
          else acc
      | None => acc
      end
  end.

(** [parseInt(input)] with no radix argument: leading white space, a sign,
    a [0x] or [0X] prefix selecting radix 16, then the digits. The value is
    the exact integer; a Number rounds it beyond 2^53, which changes neither
    its sign nor its order with the bounds [getConfig] compares it to. *)
Definition parseInt (input : string) : js_number :=
  let s := trim_start input in
  let '(sign, s1) :=
    match s with
    | String "-" r => (-1, r)
    | String "+" r => (1, r)
    | _ => (1, s)
    end in
  let '(radix, s2) :=
    match s1 with
    | String "0" (String "x" r) => (16, r)
    | String "0" (String "X" r) => (16, r)
    | _ => (10, s1)
    end in
  match parse_digits radix s2 None with
  | None => NaN
  | Some v => Num (sign * v)
  end.

(** [parseInt(config.KEY)]: an absent property is [undefined], which
    [parseInt] reads as the string ["undefined"]. *)
Definition parseInt_property (key : string) (config : env_vars) : js_number :=
  match lookup key config with
  | None => parseInt "undefined"
  | Some v => parseInt v
  end.

(** Lines 43-92: the configuration the process runs with. *)
Definition configValues (f : file_read) : completion Config.config :=
  let config := loadEnvConfig f in
  Config.getConfig (parseInt_property "PORT" config)
                   (parseInt_property "BATCH_SIZE" config).

End EnvFile.

(* ===================================================================== *)
(** ** Timers *)
(* ===================================================================== *)

Module Timer.

(** The longest delay a timer of the runtime takes: [2^31 - 1] ms. *)
Definition TIMEOUT_MAX : Z := 2147483647.

(** The time [setTimeout(f, ms)] waits: a delay below 1 or above
    [TIMEOUT_MAX] is replaced by 1. *)
Definition waited (ms : Z) : Z :=
  if (ms <? 1) || (ms >? TIMEOUT_MAX) then 1 else ms.

End Timer.

(* ===================================================================== *)
(** ** The globals set by [initializeWeb3], and the start of [startServer] *)
(* ===================================================================== *)

Module Startup.

(** [let provider, wallet, contract;] at line 479. *)
Definition unset : Orchestrator.globals :=
  Orchestrator.mkGlobals false false None.

Section Globals.
Variable PRIVATE_KEY : option string.
Variable env : nat -> Bootstrap.attempt_env.
(** How the contract at CONTRACT_ADDRESS answers. *)
Variable remote : Orchestrator.contract_api.

(** The assignments made by one pass through the [try] block: [provider]
    at line 499, [wallet] and [contract] at lines 507-508 once the network
    has answered and the wallet has been built. *)
Definition assignments (a : Bootstrap.attempt_env) (g : Orchestrator.globals)
  : Orchestrator.globals :=
  let g1 := Orchestrator.mkGlobals true (Orchestrator.wallet g)
                                   (Orchestrator.contract g) in
  match Bootstrap.getNetwork a with
  | Throw _ => g1
  | Normal _ =>
      match Bootstrap.new_Wallet a with
      | Throw _ => g1
      | Normal _ => Orchestrator.mkGlobals true true (Some remote)
      end
  end.

(** [initializeWeb3(retryCount, maxRetries)] again, this time with the
    globals it leaves behind instead of its events. *)
Equations? initializeWeb3_globals (retryCount maxRetries : nat)
  (g : Orchestrator.globals)
  : bool * Orchestrator.globals by wf (maxRetries - retryCount)%nat lt :=
  initializeWeb3_globals retryCount maxRetries g
    with Bootstrap.key_missing PRIVATE_KEY => {
    | true := (false, g);
    | false with Bootstrap.connect (env retryCount) => {
      | Normal _ := (true, assignments (env retryCount) g);
      | Throw _ with lt_dec retryCount maxRetries => {
        | left _ :=
            initializeWeb3_globals (S retryCount) maxRetries
                                   (assignments (env retryCount) g);
        | right _ := (false, assignments (env retryCount) g)
        }
      }
    }.
Proof. lia. Qed.

(** Lines 998-1010 of [startServer]: the globals after
    [await initializeWeb3()], and whether [setupCronJob()] is called. The
    port loop that follows is not part of the model. *)
Definition startServer_web3 : bool * Orchestrator.globals :=
  initializeWeb3_globals 0 3 unset.

Definition cron_scheduled : bool := fst startServer_web3.

End Globals.
End Startup.

(* ===================================================================== *)
(** ** The endpoints that trigger a distribution *)
(* ===================================================================== *)

Module Http.
Import Orchestrator.

(** The status and the JSON body of a response, without its timestamp. *)
Record response : Type := mkResponse {
  code : Z;
  body_success : bool;
  body_message : option string;
  body_error : option string;
  body_details : option run_result
}.

(** [result.message] *)
Definition result_message (r : run_result) : string :=
  match r with
  | NoUsers => "No users to process"
  | Summary s => message s
  | Fatal _ => "Distribution process failed completely"
  end.

(** [result.error]; [None] is [undefined]. *)
Definition result_error (r : run_result) : option string :=
  match r with
  | Fatal e => Some e
  | _ => None
  end.

(** [o || d] for a string or [undefined]. *)
Definition or_string (o : option string) (d : string) : string :=
  match o with
  | Some (String c s) => String c s
  | _ => d
  end.

(** [!provider || !contract || !wallet] *)
Definition web3_missing (g : globals) : bool :=
  negb (provider g)
  || match contract g with Some _ => false | None => true end
  || negb (wallet g).

Section Handlers.
Variable BATCH_SIZE : Z.
Variable g : globals.

(** [POST /distribute-now], lines 718-756: the response and the state
    left by the run, if one was started. *)
Definition distribute_now : response * run_state :=
  if web3_missing g
  then (mkResponse 503 false None (Some "Web3 connection not available") None,
        initial)
  else
    match distributeRewardsInBatches BATCH_SIZE g with
    | (Normal result, st) =>
        if result_success result
        then (mkResponse 200 true
                (Some "Immediate reward distribution completed")
                None (Some result), st)
        else (mkResponse 500 false None
                (Some (or_string (result_error result) "Distribution failed"))
                (Some result), st)
    | (Throw m, st) => (mkResponse 500 false None (Some m) None, st)
    end.

(** [POST /trigger-distribution], lines 759-797. *)
Definition trigger_distribution : response * run_state :=
  if web3_missing g
  then (mkResponse 503 false None (Some "Web3 connection not available") None,
        initial)
  else
    match distributeRewardsInBatches BATCH_SIZE g with
    | (Normal result, st) =>
        if result_success result
        then (mkResponse 200 true
                (Some (or_string (Some (result_message result))
                                 "Reward distribution completed"))
                None (Some result), st)
        else (mkResponse 500 false None
                (Some (or_string (result_error result) "Distribution failed"))
                (Some result), st)
    | (Throw m, st) => (mkResponse 500 false None (Some m) None, st)
    end.

End Handlers.
End Http.

(* ===================================================================== *)
(** ** The endpoint [GET /user-rewards/:address] *)
(* ===================================================================== *)

Module Rewards.

(** The fields of [contract.userRecord(address)] the handler reads. *)
Record user_record : Type := mkUserRecord {
  totalInvestment : Z;
  totalWithdrawn : Z;
  isRegistered : bool;
  stakeCount : Z
}.

(** The two contract methods the handler awaits. Neither is raced against
    a timer: the model covers the calls that settle. *)
Record rewards_api : Type := mkRewardsApi {
  userRecord : string -> completion user_record;
  calculateClaimAbles : string -> Z -> completion Z
}.

(** An element of [stakes]. *)
Record stake : Type := mkStake {
  stakeIndex : Z;
  claimable : string;
  claimableFormatted : string
}.

Inductive response : Type :=
| Unavailable                            (* 503 *)
| NotRegistered                          (* 404 *)
| Rewards (userAddress totalInvestment totalWithdrawn stakeCount : string)
          (stakes : list stake)          (* 200 *)
| Failed (error : string).               (* 500 *)

Definition code (r : response) : Z :=
  match r with
  | Unavailable => 503
  | NotRegistered => 404
  | Rewards _ _ _ _ _ => 200
  | Failed _ => 500
  end.

Inductive event : Type :=
| EvUserRecord (address : string)
| EvCalculateClaimAbles (address : string) (index : Z).

Section Handler.
(** [ethers.formatEther] *)
Variable formatEther : Z -> string.
Variable g : Orchestrator.globals.
Variable api : rewards_api.

(** The loop of lines 864-871 over the remaining values of [i]: the
    array [stakes] so far, and the calls made so far. *)
Fixpoint collect (userAddress : string) (indices : list Z)
         (stakes : list stake) (calls : list event)
  : completion (list stake) * list event :=
  match indices with
  | [] => (Normal stakes, calls)
  | i :: rest =>
      let calls' := (calls ++ [EvCalculateClaimAbles userAddress i])%list in
      match calculateClaimAbles api userAddress i with
      | Throw m => (Throw m, calls')
      | Normal c =>
          collect userAddress rest
                  (stakes ++ [mkStake i (toString c) (formatEther c)])%list
                  calls'
      end
  end.

(** The handler, lines 840-888. *)
Definition user_rewards (userAddress : string) : response * list event :=
  if Http.web3_missing g then (Unavailable, [])
  else
    match userRecord api userAddress with
    | Throw m => (Failed m, [EvUserRecord userAddress])
    | Normal record =>
        if negb (isRegistered record)
        then (NotRegistered, [EvUserRecord userAddress])
        else
          match collect userAddress
                        (Orchestrator.batch_indices (stakeCount record))
                        [] [EvUserRecord userAddress] with
          | (Throw m, calls) => (Failed m, calls)
          | (Normal stakes, calls) =>
              (Rewards userAddress
                       (toString (totalInvestment record))
                       (toString (totalWithdrawn record))
                       (toString (stakeCount record))
                       stakes,
               calls)
          end
    end.

End Handler.
End Rewards.

(* ===================================================================== *)
(** ** Further notions about a run *)
(* ===================================================================== *)

Module Pacing.
Import Orchestrator.

(** Whether the receipt of the batch comes back: estimation, submission
    and confirmation all resolve. *)
Definition confirmed (BATCH_SIZE : Z) (c : contract_api) (totalUsers : Z)
           (batchIndex : Z) : bool :=
  let s := startIndex BATCH_SIZE batchIndex in
  let e := endIndex BATCH_SIZE totalUsers batchIndex in
  match estimateGas c s e with
  | Resolved gasEstimate =>
      match distributeRewardsToAll c s e (gas_limit gasEstimate) with
      | Resolved tx =>
          match wait tx with
          | Resolved (Some _) => true
          | _ => false
          end
      | _ => false
      end
  | _ => false
  end.

(** The calls of one batch as the answers of the contract decide them:
    the gas estimation; if it resolves, the submission with the limit
    computed from it; if that resolves, the wait for the confirmation of the
    transaction returned; and if a receipt comes back, the pause unless the
    batch is the last. *)
Definition expected_calls (BATCH_SIZE : Z) (c : contract_api)
           (totalUsers totalBatches : Z) (batchIndex : Z) : list event :=
  let s := startIndex BATCH_SIZE batchIndex in
  let e := endIndex BATCH_SIZE totalUsers batchIndex in
  EvEstimateGas s e
    :: match estimateGas c s e with
       | Resolved gasEstimate =>
           EvSubmit s e (gas_limit gasEstimate)
             :: match distributeRewardsToAll c s e (gas_limit gasEstimate) with
                | Resolved tx =>
                    EvWait (hash tx)
                      :: match wait tx with
                         | Resolved (Some _) =>
                             if batchIndex <? totalBatches - 1
                             then [EvSleep 5000] else []
                         | _ => []
                         end
                | _ => []
                end
       | _ => []
       end.

(** The pauses of a trace, in order. *)
Definition pauses (evs : list event) : list Z :=
  flat_map (fun e => match e with EvSleep ms => [ms] | _ => [] end) evs.

End Pacing.

(** Concrete answers used to exercise the endpoint models. *)
Module RewardsScenario.

(** A registered user with three stakes; the claimable amount of stake
    [i] is [(i + 1) * 10^18], except that the call fails for stake [bad]. *)
Definition three_stakes (bad : Z) : Rewards.rewards_api :=
  Rewards.mkRewardsApi
    (fun _ => Normal (Rewards.mkUserRecord 5000 1200 true 3))
    (fun _ i => if i =? bad then Throw "execution reverted"
                else Normal ((i + 1) * 10 ^ 18)).

(** A stand-in for [ethers.formatEther] on whole amounts. *)
Definition whole_ether (wei : Z) : string :=
  toString (wei / 10 ^ 18) ++ ".0".

End RewardsScenario.

(* ===================================================================== *)
(** ** Arithmetic of the partition *)
(* ===================================================================== *)

Section CeilDiv.
Variables n b : Z.
Hypothesis Hb : 0 < b.

Lemma Math_ceil_div_bounds :
  (Math_ceil_div n b - 1) * b < n <= Math_ceil_div n b * b.
Proof.
  unfold Math_ceil_div.
  pose proof (Z.div_mod (- n) b ltac:(lia)) as Hdm.
  pose proof (Z.mod_pos_bound (- n) b Hb) as Hm.
  nia.
Qed.

Lemma Math_ceil_div_nonneg : 0 <= n -> 0 <= Math_ceil_div n b.
Proof. pose proof Math_ceil_div_bounds. nia. Qed.

Lemma Math_ceil_div_pos : 0 < n -> 0 < Math_ceil_div n b.
Proof. pose proof Math_ceil_div_bounds. nia. Qed.

Lemma Math_ceil_div_zero : n = 0 -> Math_ceil_div n b = 0.
Proof. pose proof Math_ceil_div_bounds. nia. Qed.

Lemma Math_ceil_div_unique k : (k - 1) * b < n <= k * b -> Math_ceil_div n b = k.
Proof. pose proof Math_ceil_div_bounds. nia. Qed.
End CeilDiv.

(* ===================================================================== *)
(** ** The partition computed by the loop *)
(* ===================================================================== *)

(** The values of the loop counter. *)
Section Indices.
Import Orchestrator.

Lemma batch_indices_length n :
  List.length (batch_indices n) = Z.to_nat n.
Proof. unfold batch_indices. now rewrite length_map, length_seq. Qed.

Lemma batch_indices_nth n i :
  0 <= i < n -> nth_error (batch_indices n) (Z.to_nat i) = Some i.
Proof.
  intros Hi. unfold batch_indices.
  rewrite nth_error_map, nth_error_seq.
  destruct (Nat.ltb_spec (Z.to_nat i) (Z.to_nat n)); [| lia].
  simpl. f_equal. lia.
Qed.

Lemma batch_indices_In n i : In i (batch_indices n) <-> 0 <= i < n.
Proof.
  unfold batch_indices. rewrite in_map_iff. split.
  - intros (k & <- & Hk). apply in_seq in Hk. lia.
  - intros Hi. exists (Z.to_nat i). split; [lia |]. apply in_seq. lia.
Qed.
End Indices.

Section Partition.
Import Orchestrator.
Variable BATCH_SIZE : Z.
Variable totalUsers : Z.
Hypothesis Hsize : 0 < BATCH_SIZE.
Hypothesis Hcount : 0 <= totalUsers.

Let tb := total_batches BATCH_SIZE totalUsers.

Lemma total_batches_bounds : (tb - 1) * BATCH_SIZE < totalUsers <= tb * BATCH_SIZE.
Proof. apply Math_ceil_div_bounds; assumption. Qed.

Lemma total_batches_nonneg : 0 <= tb.
Proof. apply Math_ceil_div_nonneg; assumption. Qed.

Lemma batch_ranges_length :
  Z.of_nat (List.length (batch_ranges BATCH_SIZE totalUsers)) = tb.
Proof.
  unfold batch_ranges. rewrite length_map, batch_indices_length.
  pose proof total_batches_nonneg. fold tb. lia.
Qed.

Lemma batch_ranges_nth i :
  0 <= i < tb ->
  nth_error (batch_ranges BATCH_SIZE totalUsers) (Z.to_nat i)
  = Some (i * BATCH_SIZE, Z.min ((i + 1) * BATCH_SIZE - 1) (totalUsers - 1)).
Proof.
  intros Hi. unfold batch_ranges. rewrite nth_error_map.
  fold tb. rewrite (batch_indices_nth Hi). simpl.
  unfold batch_range, endIndex, startIndex. do 2 f_equal. lia.
Qed.

(** Ranges of the indices [a, a+1, ..., a+len-1] when [a + len] is the
    number of batches: they tile what is left from [a * BATCH_SIZE] on. *)
Lemma tiles_from len : forall a : nat,
  Z.of_nat a + Z.of_nat len = tb ->
  tiles (Z.min (Z.of_nat a * BATCH_SIZE) totalUsers)
        (map (batch_range BATCH_SIZE totalUsers) (map Z.of_nat (seq a len)))
        (totalUsers - 1).
Proof.
  pose proof total_batches_bounds as Hb.
  induction len as [| len IH]; intros a Ha; simpl.
  - assert (Z.of_nat a = tb) as -> by lia. lia.
  - assert (Z.of_nat a * BATCH_SIZE < totalUsers) by nia.
    specialize (IH (S a) ltac:(lia)).
    replace (endIndex BATCH_SIZE totalUsers (Z.of_nat a) + 1)
      with (Z.min (Z.of_nat (S a) * BATCH_SIZE) totalUsers)
      by (unfold endIndex, startIndex; lia).
    unfold startIndex, endIndex. unfold startIndex.
    repeat split; try lia. exact IH.
Qed.

Lemma batch_ranges_tiles :
  tiles 0 (batch_ranges BATCH_SIZE totalUsers) (totalUsers - 1).
Proof.
  pose proof total_batches_nonneg.
  pose proof (@tiles_from (Z.to_nat tb) 0%nat ltac:(lia)) as Ht.
  simpl in Ht. rewrite Z.min_l in Ht by lia. exact Ht.
Qed.

Lemma batch_ranges_empty :
  batch_ranges BATCH_SIZE totalUsers = [] <-> totalUsers = 0.
Proof.
  pose proof total_batches_bounds. pose proof batch_ranges_length as Hl.
  split; intros E.
  - rewrite E in Hl. simpl in Hl. nia.
  - assert (tb = 0) by (apply Math_ceil_div_zero; assumption).
    destruct (batch_ranges BATCH_SIZE totalUsers); [reflexivity |].
    simpl in Hl. lia.
Qed.
End Partition.

(** Consequences of [tiles] that do not depend on how the list was built. *)
Section Tiles.

Lemma tiles_le rs : forall lo hi, tiles lo rs hi -> lo <= hi + 1.
Proof.
  induction rs as [| [s e] rs IH]; simpl; intros lo hi H.
  - lia.
  - destruct H as (-> & Hse & Ht). apply IH in Ht. lia.
Qed.

(** The union of the ranges is exactly [lo, hi]. *)
Lemma tiles_union rs : forall lo hi k,
  tiles lo rs hi ->
  (lo <= k <= hi <-> exists r, In r rs /\ in_range k r).
Proof.
  induction rs as [| [s e] rs IH]; simpl; intros lo hi k H.
  - split; [lia | intros (r & [] & _)].
  - destruct H as (-> & Hse & Ht).
    pose proof (tiles_le _ _ _ Ht) as Hle.
    specialize (IH _ _ k Ht). unfold in_range in *. split.
    + intros Hk. destruct (Z_le_gt_dec k e).
      * exists (lo, e). simpl. split; [now left | lia].
      * destruct (proj1 IH ltac:(lia)) as (r & Hr & Hkr).
        exists r. split; [now right | exact Hkr].
    + intros (r & [<- | Hr] & Hkr); simpl in *.
      * lia.
      * assert (e + 1 <= k <= hi) by (apply IH; eauto). lia.
Qed.

Lemma tiles_nth_lower rs : forall lo hi j rj,
  tiles lo rs hi -> nth_error rs j = Some rj -> lo <= fst rj.
Proof.
  induction rs as [| [s e] rs IH]; intros lo hi j rj H Hj.
  - destruct j; discriminate.
  - simpl in H. destruct H as (-> & Hse & Ht).
    destruct j as [| j]; simpl in Hj.
    + injection Hj as <-. simpl. lia.
    + pose proof (IH _ _ _ _ Ht Hj). lia.
Qed.

(** Every range starts after the end of every earlier one. *)
Lemma tiles_ordered rs : forall lo hi i j ri rj,
  tiles lo rs hi ->
  (i < j)%nat ->
  nth_error rs i = Some ri -> nth_error rs j = Some rj ->
  fst ri <= snd ri /\ snd ri < fst rj.
Proof.
  induction rs as [| [s e] rs IH]; intros lo hi i j ri rj H Hij Hi Hj.
  - destruct i; discriminate.
  - simpl in H. destruct H as (-> & Hse & Ht).
    destruct j as [| j]; [lia |]. simpl in Hj.
    destruct i as [| i]; simpl in Hi.
    + injection Hi as <-. simpl. split; [exact Hse |].
      pose proof (tiles_nth_lower _ _ _ _ Ht Hj). lia.
    + apply (IH _ _ i j ri rj Ht); [lia | exact Hi | exact Hj].
Qed.

(** Consecutive ranges touch. *)
Lemma tiles_contiguous rs : forall lo hi i ri rj,
  tiles lo rs hi ->
  nth_error rs i = Some ri -> nth_error rs (S i) = Some rj ->
  fst rj = snd ri + 1.
Proof.
  induction rs as [| [s e] rs IH]; intros lo hi i ri rj H Hi Hj.
  - destruct i; discriminate.
  - simpl in H. destruct H as (-> & Hse & Ht).
    destruct i as [| i]; simpl in Hi, Hj.
    + injection Hi as <-. destruct rs as [| [s1 e1] rs]; [discriminate |].
      injection Hj as <-. simpl in *. lia.
    + eapply IH; eauto.
Qed.
End Tiles.

(* ===================================================================== *)
(** ** Counting in a list of batches *)
(* ===================================================================== *)

Section Counting.
Variable A : Type.
Variable p : A -> bool.

Lemma filter_split_length (l : list A) :
  (List.length (filter p l) + List.length (filter (fun x => negb (p x)) l)
   = List.length l)%nat.
Proof. induction l as [| x l IH]; simpl; [| destruct (p x); simpl]; lia. Qed.

Lemma filter_length_le (l : list A) :
  (List.length (filter p l) <= List.length l)%nat.
Proof. pose proof (filter_split_length l). lia. Qed.

Lemma filter_all (l : list A) :
  List.length (filter p l) = List.length l <-> (forall x, In x l -> p x = true).
Proof.
  induction l as [| x l IH]; simpl.
  - split; [intros _ y [] | reflexivity].
  - pose proof (filter_length_le l) as Hle.
    destruct (p x) eqn:E; simpl; split.
    + intros H y [<- | Hy]; [exact E | apply IH; [lia | exact Hy]].
    + intros H. f_equal. apply IH. auto.
    + lia.
    + intros H. specialize (H x (or_introl eq_refl)). congruence.
Qed.

Lemma filter_some (l : list A) :
  (0 < List.length (filter p l))%nat <-> (exists x, In x l /\ p x = true).
Proof.
  split.
  - destruct (filter p l) as [| x l'] eqn:E; simpl; [lia |]. intros _.
    exists x. apply filter_In. rewrite E. now left.
  - intros (x & Hx & Hp).
    assert (Hin : In x (filter p l)) by (apply filter_In; auto).
    destruct (filter p l); [destruct Hin | simpl; lia].
Qed.

Lemma filter_none (l : list A) :
  List.length (filter p l) = 0%nat <-> (forall x, In x l -> p x = false).
Proof.
  induction l as [| x l IH]; simpl.
  - split; [intros _ y [] | reflexivity].
  - destruct (p x) eqn:E; simpl; split.
    + discriminate.
    + intros H. specialize (H x (or_introl eq_refl)). congruence.
    + intros H y [<- | Hy]; [exact E | apply IH; assumption].
    + intros H. apply IH. auto.
Qed.
End Counting.

(* ===================================================================== *)
(** ** One batch, then the loop *)
(* ===================================================================== *)

Section BatchFacts.
Import Orchestrator Outcome.
Variable BATCH_SIZE : Z.
Variable c : contract_api.
Variable totalUsers totalBatches : Z.

Local Abbreviation effect := (batch_effect BATCH_SIZE c totalUsers totalBatches).
Local Abbreviation outcome_at := (batch_outcome BATCH_SIZE c totalUsers).
Local Abbreviation after := (after BATCH_SIZE c totalUsers totalBatches).

Local Ltac run_batch :=
  unfold batch_effect, process_batch, try_catch, bind, emit, lift, throw,
    push_failed, incr_failure, incr_success, ret, combine, initial; simpl.

Local Ltac split_answers i :=
  destruct (estimateGas c (startIndex BATCH_SIZE i)
                        (endIndex BATCH_SIZE totalUsers i))
    as [gasEstimate | m | ]; simpl;
  [ destruct (distributeRewardsToAll c (startIndex BATCH_SIZE i)
                (endIndex BATCH_SIZE totalUsers i) (gas_limit gasEstimate))
      as [tx | m | ]; simpl;
    [ destruct (wait tx) as [[r |] | m | ]; simpl;
      [ destruct (status r =? 1); simpl;
        destruct (i <? totalBatches - 1); simpl | .. ]
    | .. ]
  | .. ].

Local Ltac same_state :=
  f_equal; f_equal; try lia; rewrite ?app_nil_r, <- ?app_assoc; reflexivity.

(** A batch never throws, and what it does to the state does not depend on
    the state it starts from. *)
Lemma process_batch_combine i s :
  process_batch BATCH_SIZE c totalUsers totalBatches i s
  = (Normal tt, combine s (effect i)).
Proof.
  destruct s as [sc fc fb tr]. run_batch. split_answers i; same_state.
Qed.

Lemma effect_successCount i :
  st_successCount (effect i) = if is_success (outcome_at i) then 1 else 0.
Proof. unfold batch_outcome. run_batch. split_answers i; reflexivity. Qed.

Lemma effect_failureCount i :
  st_failureCount (effect i) = if is_failed (outcome_at i) then 1 else 0.
Proof.
  unfold is_failed, batch_outcome. run_batch. split_answers i; reflexivity.
Qed.

Lemma effect_failedBatches i :
  st_failedBatches (effect i)
  = match outcome_at i with
    | Success => []
    | Failed m => [mkFailed (i + 1) m]
    end.
Proof. unfold batch_outcome. run_batch. split_answers i; reflexivity. Qed.

(** The trace of a batch starts with its gas estimation. *)
Lemma effect_trace_head i :
  exists rest,
    trace (effect i)
    = EvEstimateGas (startIndex BATCH_SIZE i)
                    (endIndex BATCH_SIZE totalUsers i) :: rest
    /\ forall s e, ~ In (EvEstimateGas s e) rest.
Proof.
  run_batch. split_answers i; eexists; (split; [reflexivity |]);
    simpl; intros s e H; intuition discriminate.
Qed.

(** A submission is only made for the range of the batch, after its gas
    estimation has resolved, and with the limit computed from it. *)
Lemma effect_trace_submit i s e gasLimit :
  In (EvSubmit s e gasLimit) (trace (effect i)) ->
  s = startIndex BATCH_SIZE i /\ e = endIndex BATCH_SIZE totalUsers i /\
  exists gasEstimate,
    estimateGas c s e = Resolved gasEstimate /\
    gasLimit = gas_limit gasEstimate.
Proof.
  run_batch.
  destruct (estimateGas c (startIndex BATCH_SIZE i)
                        (endIndex BATCH_SIZE totalUsers i))
    as [gasEstimate | m | ] eqn:Eest; simpl;
  [ destruct (distributeRewardsToAll c (startIndex BATCH_SIZE i)
                (endIndex BATCH_SIZE totalUsers i) (gas_limit gasEstimate))
      as [tx | m | ]; simpl;
    [ destruct (wait tx) as [[r |] | m | ]; simpl;
      [ destruct (status r =? 1); simpl;
        destruct (i <? totalBatches - 1); simpl | .. ]
    | .. ]
  | .. ];
  intros H; repeat (destruct H as [H | H]; try discriminate H);
    try contradiction;
    injection H as <- <- <-; repeat split; try reflexivity;
    (exists gasEstimate; split; [exact Eest | reflexivity]).
Qed.

(** When the gas estimation resolves, the submission is made. *)
Lemma effect_trace_submitted i gasEstimate :
  estimateGas c (startIndex BATCH_SIZE i) (endIndex BATCH_SIZE totalUsers i)
  = Resolved gasEstimate ->
  In (EvSubmit (startIndex BATCH_SIZE i) (endIndex BATCH_SIZE totalUsers i)
               (gas_limit gasEstimate))
     (trace (effect i)).
Proof.
  intros Eest. run_batch. rewrite Eest. simpl.
  destruct (distributeRewardsToAll c (startIndex BATCH_SIZE i)
              (endIndex BATCH_SIZE totalUsers i) (gas_limit gasEstimate))
    as [tx | m | ]; simpl;
  [ destruct (wait tx) as [[r |] | m | ]; simpl;
    [ destruct (status r =? 1); simpl;
      destruct (i <? totalBatches - 1); simpl | .. ]
  | .. ]; auto.
Qed.

Lemma for_each_batches l : forall s,
  for_each l (process_batch BATCH_SIZE c totalUsers totalBatches) s
  = (Normal tt, after l s).
Proof.
  unfold after.
  induction l as [| i l IH]; intros s; simpl; [reflexivity |].
  unfold bind. rewrite process_batch_combine. apply IH.
Qed.

Lemma after_successCount l : forall s,
  st_successCount (after l s)
  = st_successCount s + count_success BATCH_SIZE c totalUsers l.
Proof.
  unfold after, count_success.
  induction l as [| i l IH]; intros s; simpl; [lia |].
  rewrite IH. simpl. rewrite effect_successCount.
  destruct (is_success (outcome_at i)); simpl List.length; lia.
Qed.

Lemma after_failureCount l : forall s,
  st_failureCount (after l s)
  = st_failureCount s + count_failed BATCH_SIZE c totalUsers l.
Proof.
  unfold after, count_failed.
  induction l as [| i l IH]; intros s; simpl; [lia |].
  rewrite IH. simpl. rewrite effect_failureCount.
  destruct (is_failed (outcome_at i)); simpl List.length; lia.
Qed.

Lemma after_failedBatches l : forall s,
  st_failedBatches (after l s)
  = (st_failedBatches s ++ failures_of BATCH_SIZE c totalUsers l)%list.
Proof.
  unfold after, failures_of.
  induction l as [| i l IH]; intros s; simpl; [now rewrite app_nil_r |].
  rewrite IH. simpl. rewrite effect_failedBatches, <- app_assoc. reflexivity.
Qed.

Lemma after_trace l : forall s,
  trace (after l s)
  = (trace s ++ flat_map (fun i => trace (effect i)) l)%list.
Proof.
  unfold after.
  induction l as [| i l IH]; intros s; simpl; [now rewrite app_nil_r |].
  rewrite IH. simpl. rewrite <- app_assoc. reflexivity.
Qed.
End BatchFacts.

(* ===================================================================== *)
(** ** A whole run *)
(* ===================================================================== *)

Section RunFacts.
Import Orchestrator Outcome.
Variable BATCH_SIZE : Z.
Variable g : globals.
Variable c : contract_api.
Hypothesis Hprovider : provider g = true.
Hypothesis Hwallet : wallet g = true.
Hypothesis Hcontract : contract g = Some c.

Lemma run_count_failed m :
  race_timeout (getUSersLengh c) "Contract call timeout" = Throw m ->
  distributeRewardsInBatches BATCH_SIZE g
  = (Normal (Fatal ("Contract connection failed: " ++ m)),
     mkState 0 0 [] [EvGetUsersLength]).
Proof.
  intros Hm. unfold distributeRewardsInBatches, run_body.
  rewrite Hprovider, Hwallet, Hcontract.
  unfold try_catch, bind, emit, lift, throw, ret, initial. simpl.
  rewrite Hm. reflexivity.
Qed.

Lemma run_no_users :
  getUSersLengh c = Resolved 0 ->
  distributeRewardsInBatches BATCH_SIZE g
  = (Normal NoUsers, mkState 0 0 [] [EvGetUsersLength]).
Proof.
  intros Hm. unfold distributeRewardsInBatches, run_body.
  rewrite Hprovider, Hwallet, Hcontract.
  unfold try_catch, bind, emit, lift, throw, ret, initial. simpl.
  rewrite Hm. reflexivity.
Qed.

Variable totalUsers : Z.
Hypothesis Hcount : getUSersLengh c = Resolved totalUsers.
Hypothesis Hsome : totalUsers <> 0.

Let tb := total_batches BATCH_SIZE totalUsers.
Let idx := batch_indices tb.
Let cs := count_success BATCH_SIZE c totalUsers idx.
Let cf := count_failed BATCH_SIZE c totalUsers idx.
Let fb := failures_of BATCH_SIZE c totalUsers idx.
Let calls := flat_map (fun i => trace (batch_effect BATCH_SIZE c totalUsers tb i)) idx.

(** The run goes through every batch and returns the summary. *)
Lemma run_summary :
  distributeRewardsInBatches BATCH_SIZE g
  = (Normal (Summary
               (mkSummary (cs >? 0) tb cs cf fb
                          (toString cs ++ "/" ++ toString tb
                             ++ " batches completed successfully"))),
     mkState cs cf fb
             (EvGetUsersLength :: calls ++ [EvLogStatus (log_status cs tb)])).
Proof.
  unfold distributeRewardsInBatches, run_body.
  rewrite Hprovider, Hwallet, Hcontract.
  unfold try_catch at 1. unfold bind at 1. unfold emit at 1. simpl.
  unfold bind at 1. unfold try_catch at 1. unfold lift. rewrite Hcount. simpl.
  destruct (totalUsers =? 0) eqn:E; [apply Z.eqb_eq in E; contradiction |].
  unfold bind at 1. rewrite for_each_batches.
  fold tb. fold idx.
  unfold bind, get, emit, ret. simpl.
  rewrite after_successCount, after_failureCount, after_failedBatches,
    after_trace.
  simpl. reflexivity.
Qed.
End RunFacts.

(* ===================================================================== *)
(** ** The range partition *)
(* ===================================================================== *)

(** C1. For every [totalUsers >= 0] and [BATCH_SIZE > 0], the ranges the loop
    goes through are [ceil(totalUsers / BATCH_SIZE)] in number (the number is
    [total_batches], the least [n] with [totalUsers <= n * BATCH_SIZE]);
    range [i] is [(i * BATCH_SIZE, min ((i+1) * BATCH_SIZE - 1)
    (totalUsers - 1))]; the ranges are non-empty, ordered, disjoint, each
    starts one past the end of the previous one, their union is exactly
    [0 .. totalUsers - 1], and there is no range iff [totalUsers = 0]. *)
Theorem C1_range_partition (BATCH_SIZE totalUsers : Z) :
  0 <= totalUsers -> 0 < BATCH_SIZE ->
  let rs := Orchestrator.batch_ranges BATCH_SIZE totalUsers in
  let n := Z.of_nat (List.length rs) in
  n = Orchestrator.total_batches BATCH_SIZE totalUsers /\
  (n - 1) * BATCH_SIZE < totalUsers <= n * BATCH_SIZE /\
  (forall i, 0 <= i < n ->
     nth_error rs (Z.to_nat i)
     = Some (i * BATCH_SIZE,
             Z.min ((i + 1) * BATCH_SIZE - 1) (totalUsers - 1))) /\
  tiles 0 rs (totalUsers - 1) /\
  (forall i j ri rj,
     (i < j)%nat -> nth_error rs i = Some ri -> nth_error rs j = Some rj ->
     fst ri <= snd ri /\ snd ri < fst rj) /\
  (forall i ri rj,
     nth_error rs i = Some ri -> nth_error rs (S i) = Some rj ->
     fst rj = snd ri + 1) /\
  (forall k, 0 <= k <= totalUsers - 1 <-> exists r, In r rs /\ in_range k r) /\
  (rs = [] <-> totalUsers = 0).
Proof.
  intros Hn Hb rs n.
  assert (Hlen : n = Orchestrator.total_batches BATCH_SIZE totalUsers)
    by (apply batch_ranges_length; assumption).
  pose proof (batch_ranges_tiles Hb Hn) as Ht. fold rs in Ht.
  split; [exact Hlen |].
  split; [rewrite Hlen; apply total_batches_bounds; assumption |].
  split; [intros i Hi; apply batch_ranges_nth; [assumption .. | lia] |].
  split; [exact Ht |].
  split; [intros i j ri rj Hij Hi Hj;
          eapply tiles_ordered; [exact Ht | exact Hij | exact Hi | exact Hj] |].
  split; [intros i ri rj Hi Hj;
          eapply tiles_contiguous; [exact Ht | exact Hi | exact Hj] |].
  split; [intros k; apply tiles_union; exact Ht |].
  apply batch_ranges_empty; assumption.
Qed.

Lemma C1_range_partition_witness :
  0 <= 250 /\ 0 < 100 /\
  tiles 0 (Orchestrator.batch_ranges 100 250) (250 - 1) /\
  Z.of_nat (List.length (Orchestrator.batch_ranges 100 250))
  = Orchestrator.total_batches 100 250.
Proof.
  assert (H0 : 0 <= 250) by lia. assert (H1 : 0 < 100) by lia.
  destruct (C1_range_partition H0 H1) as (Hlen & _ & _ & Ht & _).
  repeat split; assumption.
Defined.

(* ===================================================================== *)
(** ** Configuration *)
(* ===================================================================== *)

(** C8 does not hold as stated: a configured batch size of -5 is replaced
    by the default 100 with a warning, [getConfig] returns normally, and the
    loop then plans with 100. *)
Lemma C8_counterexample :
  Config.getConfig NaN (Num (-5))
  = Normal (Config.mkConfig 3001 100
              ["Invalid BATCH_SIZE: -5. Using default batch size 100"]) /\
  Orchestrator.batch_ranges 100 250 = [(0, 99); (100, 199); (200, 249)].
Proof. split; reflexivity. Qed.

(** The warnings [getConfig] issues: one for a port out of range, then
    one for a batch size that is negative or above 1000; a batch size of 0
    or one that is not a number falls back without a warning (line 55). *)
Lemma getConfig_warnings (parsedPort parsedBatchSize : js_number) :
  exists cfg,
    Config.getConfig parsedPort parsedBatchSize = Normal cfg /\
    Config.warnings cfg
    = ((if (or_default parsedPort 3001 <? 1)
           || (or_default parsedPort 3001 >? 65535)
        then [("Invalid PORT: " ++ toString (or_default parsedPort 3001)
                 ++ ". Using default port 3001")%string]
        else [])
       ++ match parsedBatchSize with
          | NaN => []
          | Num z =>
              if (z <? 0) || (z >? 1000)
              then [("Invalid BATCH_SIZE: " ++ toString z
                       ++ ". Using default batch size 100")%string]
              else []
          end)%list.
Proof.
  unfold Config.getConfig, Config.validate.
  generalize ((or_default parsedPort 3001 <? 1)
              || (or_default parsedPort 3001 >? 65535))%bool as port_invalid.
  intros port_invalid.
  destruct parsedBatchSize as [| z].
  - destruct port_invalid; eexists; split; reflexivity.
  - assert (Hb : or_default (Num z) 100 = if z =? 0 then 100 else z)
      by (destruct z; reflexivity).
    rewrite Hb. clear Hb.
    destruct (Z.eqb_spec z 0) as [Hz | Hz].
    + subst z. destruct port_invalid; eexists; split; reflexivity.
    + destruct (Z.ltb_spec z 1), (Z.ltb_spec z 0), (Z.gtb_spec z 1000);
        try lia; destruct port_invalid; simpl; eexists; split; reflexivity.
Qed.

(** C8, amended. For every configured batch size that is not a number, is
    [<= 0] or is above 1000, [getConfig] returns normally with
    [BATCH_SIZE = 100]; whatever is configured, it returns normally with
    [1 <= BATCH_SIZE <= 1000], so the loop never plans with a batch size
    [<= 0]. The warning "Invalid BATCH_SIZE: ..." is issued exactly when the
    value read is negative or above 1000: a value of 0 and a value that is
    not a number fall back to 100 without a warning. *)
Theorem C8_batch_size_falls_back (parsedPort parsedBatchSize : js_number) :
  exists cfg,
    Config.getConfig parsedPort parsedBatchSize = Normal cfg /\
    1 <= Config.BATCH_SIZE cfg <= 1000 /\
    (forall z, parsedBatchSize = Num z -> 1 <= z <= 1000 ->
               Config.BATCH_SIZE cfg = z) /\
    (parsedBatchSize = NaN -> Config.BATCH_SIZE cfg = 100) /\
    (forall z, parsedBatchSize = Num z -> z <= 0 \/ 1000 < z ->
               Config.BATCH_SIZE cfg = 100) /\
    Config.warnings cfg
    = ((if (or_default parsedPort 3001 <? 1)
           || (or_default parsedPort 3001 >? 65535)
        then [("Invalid PORT: " ++ toString (or_default parsedPort 3001)
                 ++ ". Using default port 3001")%string]
        else [])
       ++ match parsedBatchSize with
          | NaN => []
          | Num z =>
              if (z <? 0) || (z >? 1000)
              then [("Invalid BATCH_SIZE: " ++ toString z
                       ++ ". Using default batch size 100")%string]
              else []
          end)%list /\
    (forall z, parsedBatchSize = Num z -> z < 0 \/ 1000 < z ->
               In ("Invalid BATCH_SIZE: " ++ toString z
                     ++ ". Using default batch size 100")
                  (Config.warnings cfg)) /\
    (parsedBatchSize = NaN \/ parsedBatchSize = Num 0 ->
     forall w, In w (Config.warnings cfg) ->
               w = "Invalid PORT: " ++ toString (or_default parsedPort 3001)
                     ++ ". Using default port 3001").
Proof.
  destruct (getConfig_warnings parsedPort parsedBatchSize)
    as (cfg & Hcfg & Hwarn).
  exists cfg. split; [exact Hcfg |].
  assert (Hsize :
            1 <= Config.BATCH_SIZE cfg <= 1000 /\
            (forall z, parsedBatchSize = Num z -> 1 <= z <= 1000 ->
                       Config.BATCH_SIZE cfg = z) /\
            (parsedBatchSize = NaN -> Config.BATCH_SIZE cfg = 100) /\
            (forall z, parsedBatchSize = Num z -> z <= 0 \/ 1000 < z ->
                       Config.BATCH_SIZE cfg = 100)).
  { revert Hcfg. unfold Config.getConfig, Config.validate.
    set (b := or_default parsedBatchSize 100).
    assert (Hb : b = match parsedBatchSize with
                     | NaN => 100
                     | Num z => if z =? 0 then 100 else z
                     end)
      by (subst b; destruct parsedBatchSize as [| [| z | z]]; reflexivity).
    destruct ((or_default parsedPort 3001 <? 1)
              || (or_default parsedPort 3001 >? 65535))%bool;
      destruct (Z.ltb_spec b 1), (Z.gtb_spec b 1000); simpl;
      intros [= <-]; simpl;
      (split; [lia |]);
      (split; [intros z -> Hz; destruct (Z.eqb_spec z 0); lia |]);
      (split; [intros ->; lia |]);
      intros z -> Hz; destruct (Z.eqb_spec z 0); lia. }
  destruct Hsize as (H1 & H2 & H3 & H4).
  repeat (split; [assumption |]).
  split.
  - intros z -> Hz. rewrite Hwarn. apply in_or_app. right.
    destruct (Z.ltb_spec z 0), (Z.gtb_spec z 1000); simpl; auto; lia.
  - intros Hpb w Hw. rewrite Hwarn in Hw.
    assert (Hnone : match parsedBatchSize with
                    | NaN => []
                    | Num z =>
                        if (z <? 0) || (z >? 1000)
                        then ["Invalid BATCH_SIZE: " ++ toString z
                                ++ ". Using default batch size 100"]
                        else []
                    end = []) by (destruct Hpb as [-> | ->]; reflexivity).
    rewrite Hnone, app_nil_r in Hw.
    destruct ((or_default parsedPort 3001 <? 1)
              || (or_default parsedPort 3001 >? 65535))%bool;
      [destruct Hw as [<- | []]; reflexivity | destruct Hw].
Qed.

Lemma C8_batch_size_falls_back_witness :
  exists cfg,
    Config.getConfig (Num 3001) (Num (-5)) = Normal cfg /\
    Config.BATCH_SIZE cfg = 100 /\
    In "Invalid BATCH_SIZE: -5. Using default batch size 100"
       (Config.warnings cfg).
Proof.
  destruct (C8_batch_size_falls_back (Num 3001) (Num (-5)))
    as (cfg & Hcfg & _ & _ & _ & Hneg & _ & Hwarned & _).
  exists cfg. split; [exact Hcfg |].
  split.
  - apply (Hneg (-5)); [reflexivity | lia].
  - apply (Hwarned (-5)); [reflexivity | lia].
Defined.

(* ===================================================================== *)
(** ** Connection bootstrap *)
(* ===================================================================== *)

Section BootstrapFacts.
Import Bootstrap.
Variable PRIVATE_KEY : option string.
Variable env : nat -> attempt_env.

Local Ltac next_attempt K :=
  simp initializeWeb3; rewrite ?K; simpl;
  match goal with
  | |- context [connect (env ?k)] =>
      let E := fresh "E" in
      destruct (connect (env k)) as [[|] | ?] eqn:E; simpl
  end.

(* An attempt that connected contradicts the premise that all fail. *)
Local Ltac all_failed :=
  match goal with
  | H : forall k, (k <= 3)%nat -> _, E : connect (env ?k) = Normal _ |- _ =>
      destruct (H k ltac:(lia)) as (? & ?); congruence
  end.

(** C9. Whatever the attempts meet, [initializeWeb3()] makes at most 4
    attempts, numbered 0, 1, 2, ...; between attempt [k] and the next it
    waits [2^k] seconds ([2^k * 1000] ms) and nothing else; the waits add
    up to at most 7 seconds; and when every attempt fails it returns
    [false] after attempt 3, having waited 1, 2 and 4 seconds. *)
Theorem C9_bootstrap_bounded :
  let r := initializeWeb3_default PRIVATE_KEY env in
  let n := List.length (attempts (snd r)) in
  (n <= 4)%nat /\
  attempts (snd r) = seq 0 n /\
  sleeps (snd r) = map (fun k => 2 ^ Z.of_nat k * 1000) (seq 0 (n - 1)) /\
  schedule_of (snd r) = firstn (2 * n - 1) full_schedule /\
  total_sleep (snd r) <= 7000 /\
  ((forall k, (k <= 3)%nat -> exists m, connect (env k) = Throw m) ->
   fst r = false /\
   (key_missing PRIVATE_KEY = false ->
    attempts (snd r) = [0; 1; 2; 3]%nat /\
    sleeps (snd r) = [1000; 2000; 4000])).
Proof.
  unfold initializeWeb3_default. simp initializeWeb3.
  destruct (key_missing PRIVATE_KEY) eqn:K; simpl.
  - repeat split; try reflexivity; try lia; discriminate.
  - repeat next_attempt K;
      (repeat split; try reflexivity; try (vm_compute; discriminate);
       try (simpl; lia));
      all_failed.
Qed.

Lemma initializeWeb3_attempts_bound retryCount maxRetries :
  (retryCount <= maxRetries)%nat ->
  (List.length (attempts (snd (initializeWeb3 PRIVATE_KEY env retryCount
                                              maxRetries)))
   <= S (maxRetries - retryCount))%nat.
Proof.
  intros Hle.
  funelim (initializeWeb3 PRIVATE_KEY env retryCount maxRetries);
    simp initializeWeb3 in *; simpl.
  - lia.
  - destruct isOwner; simpl; lia.
  - rewrite Heq1 in *. simpl in *.
    match goal with IH : (_ <= _)%nat -> (_ <= _)%nat |- _ =>
      specialize (IH ltac:(lia)) end.
    lia.
  - lia.
Qed.
End BootstrapFacts.

Lemma C9_bootstrap_bounded_witness :
  fst (Bootstrap.initializeWeb3_default
         (Some "0xkey")
         (fun _ => Bootstrap.mkAttempt (Throw "could not detect network")
                                       (Normal "0xabc") Pending))
  = false.
Proof.
  apply (C9_bootstrap_bounded
           (Some "0xkey")
           (fun _ => Bootstrap.mkAttempt (Throw "could not detect network")
                                         (Normal "0xabc") Pending)).
  intros k _. exists "could not detect network". reflexivity.
Defined.

(* ===================================================================== *)
(** ** Runs of the orchestrator *)
(* ===================================================================== *)

Section OutcomeFacts.
Import Orchestrator Outcome.
Variable BATCH_SIZE : Z.
Variable c : contract_api.
Variable totalUsers : Z.

Local Abbreviation outcome_at := (batch_outcome BATCH_SIZE c totalUsers).

Lemma count_split (l : list Z) :
  count_success BATCH_SIZE c totalUsers l
  + count_failed BATCH_SIZE c totalUsers l
  = Z.of_nat (List.length l).
Proof.
  unfold count_success, count_failed, is_failed.
  pose proof (filter_split_length (fun i => is_success (outcome_at i)) l).
  lia.
Qed.

Lemma count_success_nonneg (l : list Z) :
  0 <= count_success BATCH_SIZE c totalUsers l.
Proof. unfold count_success. lia. Qed.

Lemma count_success_all (l : list Z) :
  count_success BATCH_SIZE c totalUsers l = Z.of_nat (List.length l)
  <-> (forall i, In i l -> outcome_at i = Success).
Proof.
  unfold count_success. rewrite Nat2Z.inj_iff, filter_all.
  split; intros H i Hi; specialize (H i Hi).
  - destruct (outcome_at i); [reflexivity | discriminate].
  - now rewrite H.
Qed.

Lemma count_success_none (l : list Z) :
  count_success BATCH_SIZE c totalUsers l = 0
  <-> (forall i, In i l -> exists m, outcome_at i = Failed m).
Proof.
  unfold count_success.
  replace 0 with (Z.of_nat 0) by reflexivity.
  rewrite Nat2Z.inj_iff, filter_none.
  split; intros H i Hi; specialize (H i Hi).
  - destruct (outcome_at i) as [| m]; [discriminate | now exists m].
  - destruct H as (m & ->). reflexivity.
Qed.

Lemma failures_of_length (l : list Z) :
  Z.of_nat (List.length (failures_of BATCH_SIZE c totalUsers l))
  = count_failed BATCH_SIZE c totalUsers l.
Proof.
  unfold failures_of, count_failed, is_failed.
  induction l as [| i l IH]; simpl; [reflexivity |].
  rewrite length_app. destruct (outcome_at i); simpl in *; lia.
Qed.

Lemma failures_of_batches (l : list Z) :
  map batch (failures_of BATCH_SIZE c totalUsers l)
  = map (fun i => i + 1) (filter (fun i => is_failed (outcome_at i)) l).
Proof.
  unfold failures_of, is_failed.
  induction l as [| i l IH]; simpl; [reflexivity |].
  rewrite map_app, IH. destruct (outcome_at i); reflexivity.
Qed.

Lemma failures_of_In (l : list Z) i m :
  In i l -> outcome_at i = Failed m ->
  In (mkFailed (i + 1) m) (failures_of BATCH_SIZE c totalUsers l).
Proof.
  intros Hi Ho. unfold failures_of. apply in_flat_map.
  exists i. split; [exact Hi |]. rewrite Ho. now left.
Qed.

Lemma failures_of_inv (l : list Z) f :
  In f (failures_of BATCH_SIZE c totalUsers l) ->
  exists i, In i l /\ batch f = i + 1 /\ outcome_at i = Failed (error f).
Proof.
  unfold failures_of. rewrite in_flat_map. intros (i & Hi & Hf).
  exists i. destruct (outcome_at i) as [| m]; [destruct Hf |].
  destruct Hf as [<- | []]. auto.
Qed.
End OutcomeFacts.

Section TraceFacts.
Import Orchestrator Outcome.
Variable BATCH_SIZE : Z.
Variable c : contract_api.
Variable totalUsers totalBatches : Z.

Local Abbreviation effect :=
  (batch_effect BATCH_SIZE c totalUsers totalBatches).

Lemma estimates_app l1 l2 :
  estimates (l1 ++ l2) = (estimates l1 ++ estimates l2)%list.
Proof. unfold estimates. apply flat_map_app. Qed.

Lemma estimates_effect i :
  estimates (trace (effect i)) = [batch_range BATCH_SIZE totalUsers i].
Proof.
  destruct (effect_trace_head BATCH_SIZE c totalUsers totalBatches i)
    as (rest & -> & Hrest).
  simpl. f_equal. unfold estimates.
  induction rest as [| e rest IH]; simpl; [reflexivity |].
  rewrite IH by (intros s e' H; apply (Hrest s e'); now right).
  destruct e as [| s0 e0 | | | |]; try reflexivity.
  exfalso. apply (Hrest s0 e0). now left.
Qed.

Lemma estimates_calls (l : list Z) :
  estimates (flat_map (fun i => trace (effect i)) l)
  = map (batch_range BATCH_SIZE totalUsers) l.
Proof.
  induction l as [| i l IH]; simpl; [reflexivity |].
  now rewrite estimates_app, estimates_effect, IH.
Qed.

(** A submission found in the calls of a list of batches belongs to one
    of them. *)
Lemma calls_submit (l : list Z) s e gasLimit :
  In (EvSubmit s e gasLimit) (flat_map (fun i => trace (effect i)) l) ->
  exists i gasEstimate,
    In i l /\
    s = startIndex BATCH_SIZE i /\
    e = endIndex BATCH_SIZE totalUsers i /\
    estimateGas c s e = Resolved gasEstimate /\
    gasLimit = gas_limit gasEstimate.
Proof.
  rewrite in_flat_map. intros (i & Hi & Hin).
  apply effect_trace_submit in Hin.
  destruct Hin as (-> & -> & gasEstimate & Hest & ->).
  exists i, gasEstimate. auto.
Qed.
End TraceFacts.

Section RunClaims.
Import Orchestrator Outcome.
Variable BATCH_SIZE : Z.
Variable g : globals.

Local Abbreviation run := (distributeRewardsInBatches BATCH_SIZE g).

Lemma run_not_ready :
  provider g = false \/ contract g = None \/ wallet g = false ->
  run = (Normal
           (Fatal "Web3 not initialized. Cannot proceed with distribution."),
         initial).
Proof.
  unfold distributeRewardsInBatches, run_body.
  intros [H | [H | H]]; rewrite H;
    destruct (provider g), (contract g), (wallet g); reflexivity.
Qed.

(** C7. When the contract reports zero users, the run returns normally
    with the successful result [{ success: true, message: "No users to
    process" }]; no batch is planned, nothing is counted, and the only
    call made is the count query: no estimation and no submission. *)
Theorem C7_no_users (c : contract_api) :
  provider g = true -> wallet g = true -> contract g = Some c ->
  getUSersLengh c = Resolved 0 ->
  fst run = Normal NoUsers /\
  result_success NoUsers = true /\
  batch_ranges BATCH_SIZE 0 = [] /\
  trace (snd run) = [EvGetUsersLength] /\
  (forall s e gasLimit, ~ In (EvSubmit s e gasLimit) (trace (snd run))) /\
  st_successCount (snd run) = 0 /\
  st_failureCount (snd run) = 0 /\
  st_failedBatches (snd run) = [].
Proof.
  intros Hp Hw Hc H0. rewrite (@run_no_users BATCH_SIZE g c Hp Hw Hc H0). simpl.
  repeat split; try reflexivity.
  intros s e gasLimit [H | []]. discriminate H.
Qed.

(** C3. A run always completes normally with a result object. With the
    connection missing, the result is the failure object carrying "Web3
    not initialized. Cannot proceed with distribution." and no call was
    made. With the count query rejected or timed out, it is the failure
    object carrying "Contract connection failed: " and the reason, and no
    batch was attempted. Otherwise (a non-zero count) it is the summary:
    every planned range was attempted, in order, whatever happened to the
    ranges before it, and every failed batch is in [failedBatches] with
    its reason. *)
Theorem C3_structured_result :
  exists r,
    fst run = Normal r /\
    (provider g = false \/ contract g = None \/ wallet g = false ->
     r = Fatal "Web3 not initialized. Cannot proceed with distribution."
     /\ trace (snd run) = []) /\
    (forall c,
       provider g = true -> wallet g = true -> contract g = Some c ->
       (forall m,
          race_timeout (getUSersLengh c) "Contract call timeout" = Throw m ->
          r = Fatal ("Contract connection failed: " ++ m)
          /\ trace (snd run) = [EvGetUsersLength]) /\
       (forall totalUsers,
          getUSersLengh c = Resolved totalUsers -> totalUsers <> 0 ->
          exists s,
            r = Summary s /\
            totalBatches s = total_batches BATCH_SIZE totalUsers /\
            estimates (trace (snd run))
            = batch_ranges BATCH_SIZE totalUsers /\
            failedBatches s
            = failures_of BATCH_SIZE c totalUsers
                          (batch_indices (totalBatches s)))).
Proof.
  destruct (provider g) eqn:Hp, (contract g) as [c |] eqn:Hc,
           (wallet g) eqn:Hw.
  2-8: exists (Fatal "Web3 not initialized. Cannot proceed with distribution.");
    rewrite run_not_ready by (rewrite ?Hp, ?Hc, ?Hw; auto);
    (split; [reflexivity |]); (split; [split; reflexivity |]);
    intros c' Hp' Hw' Hc'; discriminate.
  destruct (getUSersLengh c) as [totalUsers | m | ] eqn:Hcount.
  - destruct (Z.eq_dec totalUsers 0) as [-> | Hnz].
    + rewrite (@run_no_users BATCH_SIZE g c Hp Hw Hc Hcount).
      exists NoUsers. split; [reflexivity |].
      split; [intros [H | [H | H]]; discriminate H |].
      intros c' _ _ Hc'. injection Hc' as <-. rewrite Hcount. split.
      * intros m H. discriminate H.
      * intros tu H. injection H as <-. intros H. contradiction.
    + rewrite (@run_summary BATCH_SIZE g c Hp Hw Hc totalUsers Hcount Hnz).
      eexists. split; [reflexivity |].
      split; [intros [H | [H | H]]; discriminate H |].
      intros c' _ _ Hc'. injection Hc' as <-. rewrite Hcount. split.
      * intros m H. discriminate H.
      * intros tu H. injection H as <-. intros _.
        eexists. split; [reflexivity |]. simpl.
        repeat split.
        rewrite estimates_app, estimates_calls. simpl.
        now rewrite app_nil_r.
  - rewrite (@run_count_failed BATCH_SIZE g c Hp Hw Hc m)
      by (rewrite Hcount; reflexivity).
    eexists. split; [reflexivity |].
    split; [intros [H | [H | H]]; discriminate H |].
    intros c' _ _ Hc'. injection Hc' as <-. rewrite Hcount. split.
    + intros m' H. injection H as <-. split; reflexivity.
    + intros tu H. discriminate H.
  - rewrite (@run_count_failed BATCH_SIZE g c Hp Hw Hc "Contract call timeout")
      by (rewrite Hcount; reflexivity).
    eexists. split; [reflexivity |].
    split; [intros [H | [H | H]]; discriminate H |].
    intros c' _ _ Hc'. injection Hc' as <-. rewrite Hcount. split.
    + intros m' H. injection H as <-. split; reflexivity.
    + intros tu H. discriminate H.
Qed.
End RunClaims.

Lemma C7_no_users_witness :
  fst (Orchestrator.distributeRewardsInBatches
         100 (Scenario.connected (Scenario.contract_rejecting 0 0)))
  = Normal Orchestrator.NoUsers.
Proof.
  apply (@C7_no_users 100 (Scenario.connected (Scenario.contract_rejecting 0 0))
                      (Scenario.contract_rejecting 0 0));
    reflexivity.
Defined.

Lemma C3_structured_result_witness :
  exists r,
    fst (Orchestrator.distributeRewardsInBatches 100 Scenario.disconnected)
    = Normal r /\
    r = Orchestrator.Fatal
          "Web3 not initialized. Cannot proceed with distribution.".
Proof.
  destruct (C3_structured_result 100 Scenario.disconnected)
    as (r & Hr & Hmissing & _).
  exists r. split; [exact Hr |].
  apply Hmissing. left. reflexivity.
Defined.

Section SummaryClaims.
Import Orchestrator Outcome.
Variable BATCH_SIZE : Z.
Variable g : globals.
Variable c : contract_api.
Variable totalUsers : Z.
Hypothesis Hprovider : provider g = true.
Hypothesis Hwallet : wallet g = true.
Hypothesis Hcontract : contract g = Some c.
Hypothesis Hcount : getUSersLengh c = Resolved totalUsers.
Hypothesis Hsome : 0 < totalUsers.
Hypothesis Hsize : 0 < BATCH_SIZE.

Local Abbreviation run := (distributeRewardsInBatches BATCH_SIZE g).
Local Abbreviation outcome_at := (batch_outcome BATCH_SIZE c totalUsers).
Local Abbreviation tb := (total_batches BATCH_SIZE totalUsers).
Local Abbreviation idx := (batch_indices tb).

Lemma run_summary_here :
  run
  = (Normal (Summary
               (mkSummary
                  (count_success BATCH_SIZE c totalUsers idx >? 0) tb
                  (count_success BATCH_SIZE c totalUsers idx)
                  (count_failed BATCH_SIZE c totalUsers idx)
                  (failures_of BATCH_SIZE c totalUsers idx)
                  (toString (count_success BATCH_SIZE c totalUsers idx)
                     ++ "/" ++ toString tb
                     ++ " batches completed successfully"))),
     mkState (count_success BATCH_SIZE c totalUsers idx)
             (count_failed BATCH_SIZE c totalUsers idx)
             (failures_of BATCH_SIZE c totalUsers idx)
             (EvGetUsersLength
                :: flat_map (fun i => trace (batch_effect BATCH_SIZE c
                                               totalUsers tb i)) idx
                ++ [EvLogStatus
                      (log_status (count_success BATCH_SIZE c totalUsers idx)
                                  tb)])).
Proof.
  apply (@run_summary BATCH_SIZE g c Hprovider Hwallet Hcontract totalUsers
                      Hcount).
  lia.
Qed.

Lemma idx_length : Z.of_nat (List.length idx) = tb.
Proof.
  rewrite batch_indices_length.
  pose proof (@total_batches_nonneg BATCH_SIZE totalUsers Hsize ltac:(lia)).
  lia.
Qed.

Lemma tb_pos : 0 < tb.
Proof. apply Math_ceil_div_pos; assumption. Qed.

(** C2, amended. For a run that gets past the count query, the summary
    has [successCount] equal to the number of successful batches and
    [failureCount] equal to the number of failed batches; [failedBatches]
    holds, in order, one entry per failed batch, made of the batch number
    ([batchIndex + 1]) and the error message (the bounds of the range are
    not part of the entry); [success] is true iff some batch succeeded;
    and the closing log reports all-succeeded iff every batch succeeded,
    all-failed iff every batch failed, and partial success iff some batch
    succeeded and some batch failed. *)
Theorem C2_summary_by_outcomes :
  exists s calls status,
    fst run = Normal (Summary s) /\
    trace (snd run) = (calls ++ [EvLogStatus status])%list /\
    successCount s = count_success BATCH_SIZE c totalUsers idx /\
    failureCount s = count_failed BATCH_SIZE c totalUsers idx /\
    failedBatches s
    = flat_map (fun i => match outcome_at i with
                         | Success => []
                         | Failed m => [mkFailed (i + 1) m]
                         end) idx /\
    (success s = true <-> exists i, In i idx /\ outcome_at i = Success) /\
    (status = AllSucceeded <-> forall i, In i idx -> outcome_at i = Success) /\
    (status = AllFailed
     <-> forall i, In i idx -> exists m, outcome_at i = Failed m) /\
    (status = PartialSuccess
     <-> (exists i, In i idx /\ outcome_at i = Success) /\
         (exists i m, In i idx /\ outcome_at i = Failed m)).
Proof.
  rewrite run_summary_here. simpl.
  pose proof idx_length as Hlen. pose proof tb_pos as Hpos.
  pose proof (count_split BATCH_SIZE c totalUsers idx) as Hsplit.
  pose proof (count_success_all BATCH_SIZE c totalUsers idx) as Hall.
  pose proof (count_success_none BATCH_SIZE c totalUsers idx) as Hnone.
  pose proof (count_success_nonneg BATCH_SIZE c totalUsers idx) as Hnn.
  assert (Hnnf : 0 <= count_failed BATCH_SIZE c totalUsers idx)
    by (unfold count_failed; lia).
  assert (Hex : 0 < count_success BATCH_SIZE c totalUsers idx
                <-> exists i, In i idx /\ outcome_at i = Success).
  { unfold count_success.
    replace 0 with (Z.of_nat 0) by reflexivity.
    rewrite <- Nat2Z.inj_lt, filter_some.
    split; intros (i & Hi & Ho); exists i; split; try exact Hi.
    - destruct (outcome_at i); [reflexivity | discriminate].
    - now rewrite Ho. }
  assert (Hexf : 0 < count_failed BATCH_SIZE c totalUsers idx
                 <-> exists i m, In i idx /\ outcome_at i = Failed m).
  { unfold count_failed.
    replace 0 with (Z.of_nat 0) by reflexivity.
    rewrite <- Nat2Z.inj_lt, filter_some. unfold is_failed.
    split.
    - intros (i & Hi & Ho). exists i.
      destruct (outcome_at i) as [| m]; [discriminate | now exists m].
    - intros (i & m & Hi & Ho). exists i. split; [exact Hi |].
      now rewrite Ho. }
  set (cs := count_success BATCH_SIZE c totalUsers idx) in *.
  set (cf := count_failed BATCH_SIZE c totalUsers idx) in *.
  eexists. exists (EvGetUsersLength
                     :: flat_map (fun i => trace (batch_effect BATCH_SIZE c
                                                    totalUsers tb i)) idx).
  exists (log_status cs tb).
  split; [reflexivity |]. split; [reflexivity |]. simpl.
  split; [reflexivity |]. split; [reflexivity |]. split; [reflexivity |].
  split; [rewrite <- Hex; destruct (Z.gtb_spec cs 0); split;
          intros; try lia; try reflexivity; discriminate |].
  unfold log_status.
  destruct (Z.eqb_spec cs tb) as [Heq | Hne];
    [| destruct (Z.gtb_spec cs 0) as [Hgt | Hle]].
  - (* every batch succeeded *)
    assert (Hs : forall i, In i idx -> outcome_at i = Success)
      by (apply Hall; lia).
    split; [tauto |]. split; split; try discriminate.
    + intros Hf. exfalso. assert (cs = 0) by (apply Hnone; exact Hf). lia.
    + intros (_ & Hf). apply Hexf in Hf. lia.
  - (* some batch succeeded, some batch failed *)
    split; [| split].
    + split; [discriminate |]. intros Hs. apply Hall in Hs. lia.
    + split; [discriminate |]. intros Hf. apply Hnone in Hf. lia.
    + split; [intros _ | reflexivity].
      split; [apply Hex; lia | apply Hexf; lia].
  - (* every batch failed *)
    assert (Hf : forall i, In i idx -> exists m, outcome_at i = Failed m)
      by (apply Hnone; lia).
    split; [| split].
    + split; [discriminate |]. intros Hs. apply Hall in Hs. lia.
    + tauto.
    + split; [discriminate |]. intros (Hs & _). apply Hex in Hs. lia.
Qed.

(** C10. For a run that gets past the count query, every batch index adds
    exactly one to exactly one of the two counters, so
    [successCount + failureCount = totalBatches]; [failedBatches] has
    [failureCount] entries, their batch numbers are those of the failed
    batches, each once and in order, and every entry is a batch of the
    run that failed with the recorded error. *)
Theorem C10_counters_invariant :
  exists s,
    fst run = Normal (Summary s) /\
    totalBatches s = tb /\
    (forall i, In i idx <-> 0 <= i < totalBatches s) /\
    (forall i,
       let d := batch_effect BATCH_SIZE c totalUsers tb i in
       (st_successCount d = 1 /\ st_failureCount d = 0) \/
       (st_successCount d = 0 /\ st_failureCount d = 1)) /\
    successCount s + failureCount s = totalBatches s /\
    Z.of_nat (List.length (failedBatches s)) = failureCount s /\
    map batch (failedBatches s)
    = map (fun i => i + 1) (filter (fun i => is_failed (outcome_at i)) idx) /\
    (forall f, In f (failedBatches s) ->
               exists i, 0 <= i < totalBatches s /\ batch f = i + 1 /\
                         outcome_at i = Failed (error f)) /\
    successCount s = st_successCount (snd run) /\
    failureCount s = st_failureCount (snd run) /\
    failedBatches s = st_failedBatches (snd run).
Proof.
  rewrite run_summary_here. simpl.
  eexists. split; [reflexivity |]. simpl.
  split; [reflexivity |].
  split; [intros i; apply batch_indices_In |].
  split.
  { intros i.
    rewrite effect_successCount, effect_failureCount. unfold is_failed.
    destruct (is_success (outcome_at i)); simpl; auto. }
  split; [rewrite count_split; apply idx_length |].
  split; [apply failures_of_length |].
  split; [apply failures_of_batches |].
  split; [| repeat split].
  intros f Hf. apply failures_of_inv in Hf.
  destruct Hf as (i & Hi & Hb & Ho). exists i.
  apply batch_indices_In in Hi. auto.
Qed.
End SummaryClaims.

Section BatchClaims.
Import Orchestrator Outcome.
Variable BATCH_SIZE : Z.
Variable g : globals.
Variable c : contract_api.
Variable totalUsers : Z.
Hypothesis Hprovider : provider g = true.
Hypothesis Hwallet : wallet g = true.
Hypothesis Hcontract : contract g = Some c.
Hypothesis Hcount : getUSersLengh c = Resolved totalUsers.
Hypothesis Hsome : 0 < totalUsers.
Hypothesis Hsize : 0 < BATCH_SIZE.

Local Abbreviation run := (distributeRewardsInBatches BATCH_SIZE g).
Local Abbreviation tb := (total_batches BATCH_SIZE totalUsers).
Local Abbreviation idx := (batch_indices tb).
Local Abbreviation calls :=
  (flat_map (fun i => trace (batch_effect BATCH_SIZE c totalUsers tb i)) idx).

Lemma run_trace status :
  status = log_status (count_success BATCH_SIZE c totalUsers idx) tb ->
  trace (snd run) = EvGetUsersLength :: calls ++ [EvLogStatus status].
Proof.
  intros ->.
  rewrite (@run_summary_here BATCH_SIZE g c totalUsers Hprovider Hwallet
                             Hcontract Hcount Hsome).
  reflexivity.
Qed.

Lemma run_trace_submit s e gasLimit :
  In (EvSubmit s e gasLimit) (trace (snd run))
  <-> In (EvSubmit s e gasLimit) calls.
Proof.
  rewrite (run_trace eq_refl). simpl. rewrite in_app_iff. simpl.
  split; [| tauto].
  intros [H | [H | [H | []]]]; try discriminate H. exact H.
Qed.

Lemma run_trace_estimate s e :
  In (EvEstimateGas s e) (trace (snd run))
  <-> In (EvEstimateGas s e) calls.
Proof.
  rewrite (run_trace eq_refl). simpl. rewrite in_app_iff. simpl.
  split; [| tauto].
  intros [H | [H | [H | []]]]; try discriminate H. exact H.
Qed.

Variable i : Z.
Hypothesis Hi : 0 <= i < tb.

Local Abbreviation s_i := (startIndex BATCH_SIZE i).
Local Abbreviation e_i := (endIndex BATCH_SIZE totalUsers i).

Lemma startIndex_inj j : startIndex BATCH_SIZE j = s_i -> j = i.
Proof. unfold startIndex. nia. Qed.

(** C4, amended. For every batch whose gas estimation resolves with
    [gasEstimate], the submission for its range is made with gas limit
    [(gasEstimate * 120) / 100] in truncating integer division and with no
    other limit; for a non-negative estimate that is the floor of
    [gasEstimate * 1.20], and it equals the ceiling exactly when
    [gasEstimate] is a multiple of 5. *)
Theorem C4_gas_limit_truncated (gasEstimate : Z) :
  estimateGas c s_i e_i = Resolved gasEstimate ->
  let limit := Z.quot (gasEstimate * 120) 100 in
  In (EvSubmit s_i e_i limit) (trace (snd run)) /\
  (forall e gasLimit,
     In (EvSubmit s_i e gasLimit) (trace (snd run)) ->
     e = e_i /\ gasLimit = limit) /\
  (0 <= gasEstimate ->
   100 * limit <= 120 * gasEstimate < 100 * (limit + 1) /\
   (limit = spec_cost_ceiling gasEstimate <-> gasEstimate mod 5 = 0)).
Proof.
  intros Hest limit. split; [| split].
  - apply run_trace_submit, in_flat_map. exists i.
    split; [apply batch_indices_In; exact Hi |].
    apply (effect_trace_submitted BATCH_SIZE c totalUsers tb i Hest).
  - intros e gasLimit Hin. apply run_trace_submit in Hin.
    apply calls_submit in Hin.
    destruct Hin as (j & ge & _ & Hs & -> & Hest' & ->).
    symmetry in Hs. apply startIndex_inj in Hs. subst j.
    rewrite Hest in Hest'. injection Hest' as <-. split; reflexivity.
  - intros Hnn. subst limit. unfold spec_cost_ceiling, Math_ceil_div.
    rewrite Z.quot_div_nonneg by lia.
    split; [| split; intros H]; Z.to_euclidean_division_equations; lia.
Qed.

(** C5. For every batch whose gas estimation is rejected or times out,
    the batch is a failed one, [failedBatches] holds its number with the
    estimation error, the estimation was asked for, and the run makes no
    submission for its range. *)
Theorem C5_failed_estimation_no_submission (m : string) :
  race_timeout (estimateGas c s_i e_i) "Gas estimation timeout" = Throw m ->
  exists s,
    fst run = Normal (Summary s) /\
    batch_outcome BATCH_SIZE c totalUsers i = Failed m /\
    In (mkFailed (i + 1) m) (failedBatches s) /\
    st_failureCount (batch_effect BATCH_SIZE c totalUsers tb i) = 1 /\
    In (EvEstimateGas s_i e_i) (trace (snd run)) /\
    (forall e gasLimit, ~ In (EvSubmit s_i e gasLimit) (trace (snd run))) /\
    submits_for s_i (trace (snd run)) = [].
Proof.
  intros Hest.
  assert (Ho : batch_outcome BATCH_SIZE c totalUsers i = Failed m)
    by (unfold batch_outcome; rewrite Hest; reflexivity).
  assert (Hno : forall e gasLimit,
             ~ In (EvSubmit s_i e gasLimit) (trace (snd run))).
  { intros e gasLimit Hin. apply run_trace_submit in Hin.
    apply calls_submit in Hin.
    destruct Hin as (j & ge & _ & Hs & -> & Hest' & _).
    symmetry in Hs. apply startIndex_inj in Hs. subst j.
    rewrite Hest' in Hest. discriminate Hest. }
  assert (Hsub : submits_for s_i (trace (snd run)) = []).
  { destruct (submits_for s_i (trace (snd run))) as [| ev l] eqn:E;
      [reflexivity |].
    exfalso.
    assert (Hin : In ev (ev :: l)) by now left.
    rewrite <- E in Hin. unfold submits_for in Hin.
    apply filter_In in Hin. destruct Hin as (Hin & Hev).
    destruct ev as [| | s e gasLimit | | |]; try discriminate Hev.
    apply Z.eqb_eq in Hev. subst s. exact (Hno e gasLimit Hin). }
  assert (Hasked : In (EvEstimateGas s_i e_i) (trace (snd run))).
  { apply run_trace_estimate, in_flat_map. exists i.
    split; [apply batch_indices_In; exact Hi |].
    destruct (effect_trace_head BATCH_SIZE c totalUsers tb i)
      as (rest & -> & _).
    now left. }
  revert Hno Hsub Hasked.
  rewrite (@run_summary_here BATCH_SIZE g c totalUsers Hprovider Hwallet
                             Hcontract Hcount Hsome).
  intros Hno Hsub Hasked.
  eexists. split; [reflexivity |].
  split; [exact Ho |].
  split; [apply failures_of_In; [apply batch_indices_In; exact Hi | exact Ho] |].
  split; [rewrite effect_failureCount; unfold is_failed; now rewrite Ho |].
  split; [exact Hasked |]. split; [exact Hno | exact Hsub].
Qed.
End BatchClaims.

(* ===================================================================== *)
(** ** The properties at concrete runs *)
(* ===================================================================== *)

Section Concrete.
Import Orchestrator Outcome Scenario.

(** Three batches of 100 over 250 users, gas estimation rejected for the
    second one: the outcomes are success, failure, success. *)
Lemma run_250_by_100 :
  distributeRewardsInBatches 100 (connected (contract_rejecting 250 100))
  = (Normal (Summary
               (mkSummary true 3 2 1 [mkFailed 2 "execution reverted"]
                          "2/3 batches completed successfully")),
     mkState 2 1 [mkFailed 2 "execution reverted"]
             [EvGetUsersLength;
              EvEstimateGas 0 99; EvSubmit 0 99 25201; EvWait "0xabc";
              EvSleep 5000;
              EvEstimateGas 100 199;
              EvEstimateGas 200 249; EvSubmit 200 249 25201; EvWait "0xabc";
              EvLogStatus PartialSuccess]).
Proof. reflexivity. Qed.

(** A count query that never answers aborts the run before any batch. *)
Lemma run_unreachable :
  distributeRewardsInBatches 100 (connected contract_unreachable)
  = (Normal (Fatal "Contract connection failed: Contract call timeout"),
     mkState 0 0 [] [EvGetUsersLength]).
Proof. reflexivity. Qed.

(** C2 does not hold as stated. Two runs with outcomes success, failure,
    success (250 users by 100 and 125 users by 50, the second batch
    failing) return the same summary, with 2 successes, 1 failure and the
    failed batch reported as number 2, although the failed ranges are
    100-199 in one and 50-99 in the other: the summary does not carry the
    bounds of the failed range. *)
Lemma C2_counterexample :
  map (batch_outcome 100 (contract_rejecting 250 100) 250) (batch_indices 3)
  = [Success; Failed "execution reverted"; Success] /\
  map (batch_outcome 50 (contract_rejecting 125 50) 125) (batch_indices 3)
  = [Success; Failed "execution reverted"; Success] /\
  fst (distributeRewardsInBatches 100 (connected (contract_rejecting 250 100)))
  = fst (distributeRewardsInBatches 50 (connected (contract_rejecting 125 50)))
  /\
  fst (distributeRewardsInBatches 100 (connected (contract_rejecting 250 100)))
  = Normal (Summary
              (mkSummary true 3 2 1 [mkFailed 2 "execution reverted"]
                         "2/3 batches completed successfully")) /\
  batch_range 100 250 1 = (100, 199) /\
  batch_range 50 125 1 = (50, 99).
Proof. repeat split; reflexivity. Qed.

(** C4 does not hold as stated. With an estimate of 21001 the submission
    is made with gas limit 25201, while [ceil(21001 * 1.20)] is 25202. *)
Lemma C4_counterexample :
  estimateGas (contract_rejecting 250 100) 0 99 = Resolved 21001 /\
  In (EvSubmit 0 99 25201)
     (trace (snd (distributeRewardsInBatches
                    100 (connected (contract_rejecting 250 100))))) /\
  spec_cost_ceiling 21001 = 25202 /\
  gas_limit 21001 <> spec_cost_ceiling 21001.
Proof.
  rewrite run_250_by_100. simpl.
  repeat split; try reflexivity; [tauto | discriminate].
Qed.

(** C6 is violated by the code. In a run of three batches whose second
    gas estimation is rejected, the 5-second pause is made after the first
    batch, but the estimation of the third batch follows that of the
    second with no pause in between. *)
Theorem C6_no_pause_after_failed_estimation :
  trace (snd (distributeRewardsInBatches
                100 (connected (contract_rejecting 250 100))))
  = [EvGetUsersLength;
     EvEstimateGas 0 99; EvSubmit 0 99 25201; EvWait "0xabc";
     EvSleep 5000;
     EvEstimateGas 100 199;
     EvEstimateGas 200 249; EvSubmit 200 249 25201; EvWait "0xabc";
     EvLogStatus PartialSuccess].
Proof. rewrite run_250_by_100. reflexivity. Qed.

Lemma C2_summary_by_outcomes_witness :
  exists s calls status,
    fst (distributeRewardsInBatches
           100 (connected (contract_rejecting 250 100)))
    = Normal (Summary s) /\
    trace (snd (distributeRewardsInBatches
                  100 (connected (contract_rejecting 250 100))))
    = (calls ++ [EvLogStatus status])%list /\
    successCount s
    = count_success 100 (contract_rejecting 250 100) 250
                    (batch_indices (total_batches 100 250)).
Proof.
  destruct (@C2_summary_by_outcomes
              100 (connected (contract_rejecting 250 100))
              (contract_rejecting 250 100) 250
              eq_refl eq_refl eq_refl eq_refl eq_refl eq_refl)
    as (s & calls & status & H1 & H2 & H3 & _).
  exists s, calls, status. repeat split; assumption.
Defined.

Lemma C10_counters_invariant_witness :
  exists s,
    fst (distributeRewardsInBatches
           100 (connected (contract_rejecting 250 100)))
    = Normal (Summary s) /\
    successCount s + failureCount s = totalBatches s.
Proof.
  destruct (@C10_counters_invariant
              100 (connected (contract_rejecting 250 100))
              (contract_rejecting 250 100) 250
              eq_refl eq_refl eq_refl eq_refl eq_refl eq_refl)
    as (s & H1 & _ & _ & _ & H2 & _).
  exists s. split; assumption.
Defined.

Lemma C4_gas_limit_truncated_witness :
  In (EvSubmit (startIndex 100 0) (endIndex 100 250 0)
               (Z.quot (21001 * 120) 100))
     (trace (snd (distributeRewardsInBatches
                    100 (connected (contract_rejecting 250 100))))).
Proof.
  apply (@C4_gas_limit_truncated
           100 (connected (contract_rejecting 250 100))
           (contract_rejecting 250 100) 250
           eq_refl eq_refl eq_refl eq_refl eq_refl eq_refl
           0 (conj (Z.le_refl 0) eq_refl) 21001 eq_refl).
Defined.

Lemma C5_failed_estimation_no_submission_witness :
  exists s,
    fst (distributeRewardsInBatches
           100 (connected (contract_rejecting 250 100)))
    = Normal (Summary s) /\
    In (mkFailed (1 + 1) "execution reverted") (failedBatches s) /\
    submits_for (startIndex 100 1)
                (trace (snd (distributeRewardsInBatches
                               100 (connected (contract_rejecting 250 100)))))
    = [].
Proof.
  destruct (@C5_failed_estimation_no_submission
              100 (connected (contract_rejecting 250 100))
              (contract_rejecting 250 100) 250
              eq_refl eq_refl eq_refl eq_refl eq_refl eq_refl
              1 (conj (Z.le_0_1) eq_refl) "execution reverted" eq_refl)
    as (s & H1 & _ & H2 & _ & _ & _ & H3).
  exists s. repeat split; assumption.
Defined.
End Concrete.

(* ===================================================================== *)
(** ** The configuration file *)
(* ===================================================================== *)

Section SplitFacts.
Import EnvFile.
Variable sep : ascii.

Lemma split_nonempty s : split sep s <> [].
Proof.
  destruct s as [| c s]; simpl; [discriminate |].
  destruct (Ascii.eqb c sep); [discriminate |].
  destruct (split sep s); discriminate.
Qed.

Lemma split_app_sep a b :
  split sep (a ++ String sep b) = (split sep a ++ split sep b)%list.
Proof.
  induction a as [| c a IH]; simpl.
  - rewrite Ascii.eqb_refl. reflexivity.
  - destruct (Ascii.eqb c sep); [now rewrite IH |].
    rewrite IH. pose proof (split_nonempty a) as Hne.
    destruct (split sep a); [contradiction | reflexivity].
Qed.

Lemma split_no_sep s : occurs sep s = false -> split sep s = [s].
Proof.
  induction s as [| c s IH]; simpl; [reflexivity |].
  destruct (Ascii.eqb c sep); simpl; [discriminate |].
  intros H. now rewrite IH.
Qed.

Lemma split_pieces_no_sep s p : In p (split sep s) -> occurs sep p = false.
Proof.
  revert p. induction s as [| c s IH]; simpl; intros p.
  - intros [<- | []]. reflexivity.
  - destruct (Ascii.eqb c sep) eqn:E.
    + intros [<- | H]; [reflexivity | now apply IH].
    + pose proof (split_nonempty s) as Hne.
      destruct (split sep s) as [| q rest]; [contradiction |].
      intros [<- | H]; simpl.
      * rewrite E. apply IH. now left.
      * apply IH. now right.
Qed.

Lemma split_pieces_occurs c s p :
  In p (split sep s) -> occurs c p = true -> occurs c s = true.
Proof.
  revert p. induction s as [| c' s IH]; simpl; intros p.
  - intros [<- | []]. discriminate.
  - destruct (Ascii.eqb c' sep) eqn:E.
    + intros [<- | H] Hc; [discriminate |].
      rewrite (IH _ H Hc). apply orb_true_r.
    + pose proof (split_nonempty s) as Hne.
      destruct (split sep s) as [| q rest]; [contradiction |].
      intros [<- | H]; simpl; intros Hc.
      * apply orb_true_iff in Hc. destruct Hc as [Hc | Hc];
          [now rewrite Hc |].
        rewrite (IH q (or_introl eq_refl) Hc). apply orb_true_r.
      * rewrite (IH p (or_intror H) Hc). apply orb_true_r.
Qed.
End SplitFacts.

Section TrimFacts.
Import EnvFile.

Lemma occurs_app c a b : occurs c (a ++ b) = occurs c a || occurs c b.
Proof.
  induction a as [| x a IH]; simpl; [reflexivity |].
  now rewrite IH, orb_assoc.
Qed.

Lemma trim_start_occurs c s :
  occurs c (trim_start s) = true -> occurs c s = true.
Proof.
  induction s as [| x s IH]; simpl; [discriminate |].
  destruct (is_space x); [| exact (fun H => H)].
  intros H. rewrite (IH H). apply orb_true_r.
Qed.

Lemma trim_end_occurs c s :
  occurs c (trim_end s) = true -> occurs c s = true.
Proof.
  induction s as [| x s IH]; simpl; [discriminate |].
  destruct (trim_end s) as [| y t] eqn:E.
  - destruct (is_space x); simpl; [discriminate |].
    rewrite orb_false_r. intros ->. reflexivity.
  - simpl. intros H. apply orb_true_iff in H. destruct H as [-> | H];
      [reflexivity |].
    rewrite (IH H). apply orb_true_r.
Qed.

Lemma trim_occurs c s : occurs c (trim s) = true -> occurs c s = true.
Proof. intros H. now apply trim_start_occurs, trim_end_occurs. Qed.

Lemma trim_end_idempotent s : trim_end (trim_end s) = trim_end s.
Proof.
  induction s as [| x s IH]; simpl; [reflexivity |].
  destruct (trim_end s) as [| y t] eqn:E.
  - destruct (is_space x) eqn:Hx; simpl; [reflexivity |].
    now rewrite Hx.
  - simpl in *. rewrite IH. reflexivity.
Qed.

Lemma trim_start_clean s : starts_clean (trim_start s).
Proof.
  induction s as [| x s IH]; simpl; [exact I |].
  destruct (is_space x) eqn:Hx; [exact IH | exact Hx].
Qed.

Lemma trim_start_of_clean s : starts_clean s -> trim_start s = s.
Proof. destruct s as [| x s]; simpl; [reflexivity | now intros ->]. Qed.

Lemma trim_end_clean s : starts_clean s -> starts_clean (trim_end s).
Proof.
  destruct s as [| x s]; simpl; [exact (fun H => H) |].
  intros Hx. destruct (trim_end s); [rewrite Hx |]; exact Hx.
Qed.

Lemma trim_idempotent s : trim (trim s) = trim s.
Proof.
  unfold trim.
  rewrite trim_start_of_clean by apply trim_end_clean, trim_start_clean.
  apply trim_end_idempotent.
Qed.

Lemma trim_end_no_space s :
  all_chars (fun c => negb (is_space c)) s = true -> trim_end s = s.
Proof.
  induction s as [| x s IH]; simpl; [reflexivity |].
  intros H. apply andb_true_iff in H. destruct H as (Hx & Hs).
  rewrite (IH Hs). apply negb_true_iff in Hx. rewrite Hx.
  destruct s; reflexivity.
Qed.

Lemma trim_no_space s :
  all_chars (fun c => negb (is_space c)) s = true -> trim s = s.
Proof.
  intros H. unfold trim.
  assert (Hs : trim_start s = s).
  { destruct s as [| x s]; simpl in *; [reflexivity |].
    apply andb_true_iff in H. destruct H as (Hx & _).
    apply negb_true_iff in Hx. now rewrite Hx. }
  rewrite Hs. now apply trim_end_no_space.
Qed.

Lemma all_chars_occurs p c s :
  all_chars p s = true -> p c = false -> occurs c s = false.
Proof.
  intros Hs Hc. induction s as [| x s IH]; simpl in *; [reflexivity |].
  apply andb_true_iff in Hs. destruct Hs as (Hx & Hs).
  rewrite (IH Hs), orb_false_r.
  destruct (Ascii.eqb_spec x c); [congruence | reflexivity].
Qed.

Lemma all_chars_weaken (p q : ascii -> bool) s :
  (forall c, p c = true -> q c = true) ->
  all_chars p s = true -> all_chars q s = true.
Proof.
  intros Hpq. induction s as [| x s IH]; simpl; [reflexivity |].
  intros H. apply andb_true_iff in H. destruct H as (Hx & Hs).
  now rewrite (Hpq _ Hx), IH.
Qed.
End TrimFacts.

Section LoadFacts.
Import EnvFile.

Lemma split_up_to sep s :
  exists rest, split sep s = up_to sep s :: rest.
Proof.
  induction s as [| c s (rest & IH)]; simpl; [now exists [] |].
  destruct (Ascii.eqb c sep); [now eexists |].
  rewrite IH. now eexists.
Qed.

(** Reading one more line at the end of the file. *)
Lemma loadEnvConfig_snoc text line :
  occurs "010" line = false ->
  loadEnvConfig (Content (text ++ String "010" line))
  = parse_line (loadEnvConfig (Content text)) line.
Proof.
  intros Hline. unfold loadEnvConfig. simpl.
  rewrite split_app_sep, fold_left_app, (split_no_sep _ _ Hline).
  reflexivity.
Qed.

Lemma parse_line_assignment envVars key value :
  occurs "=" key = false ->
  truthy key = true -> truthy (up_to "=" value) = true ->
  parse_line envVars (key ++ String "=" value)
  = assign (trim key) (trim (up_to "=" value)) envVars.
Proof.
  intros Hkey Htk Htv. unfold parse_line.
  rewrite split_app_sep, (split_no_sep _ _ Hkey).
  destruct (split_up_to "=" value) as (rest & ->). simpl.
  now rewrite Htk, Htv.
Qed.

Lemma lookup_assign key value envVars k :
  lookup k (assign key value envVars)
  = if String.eqb key "__proto__" then lookup k envVars
    else if String.eqb key k then Some value else lookup k envVars.
Proof. unfold assign. destruct (String.eqb key "__proto__"); reflexivity. Qed.

Lemma lookup_after_last_line (text key value : string) :
  occurs "=" key = false ->
  occurs "010" key = false ->
  occurs "010" value = false ->
  truthy key = true ->
  truthy (up_to "=" value) = true ->
  trim key <> "__proto__" ->
  let config :=
    loadEnvConfig (Content (text ++ String "010" (key ++ String "=" value))) in
  lookup (trim key) config = Some (trim (up_to "=" value)) /\
  (forall k, k <> trim key ->
             lookup k config = lookup k (loadEnvConfig (Content text))).
Proof.
  intros Hk Hkn Hvn Htk Htv Hproto config. subst config.
  rewrite loadEnvConfig_snoc
    by (rewrite occurs_app; simpl; now rewrite Hkn, Hvn).
  rewrite (parse_line_assignment _ _ _ Hk Htk Htv).
  apply String.eqb_neq in Hproto.
  split.
  - rewrite lookup_assign, Hproto, String.eqb_refl. reflexivity.
  - intros k Hne. rewrite lookup_assign, Hproto.
    destruct (String.eqb_spec (trim key) k); [congruence | reflexivity].
Qed.

(** X2. A line [key=value] added at the end of the file decides what the
    configuration holds for the trimmed key: the value up to its first
    ["="], trimmed. Whatever the lines before it say for that key is
    overridden, and no other key changes. *)
Theorem loadEnvConfig_last_line_wins (text key value : string) :
  occurs "=" key = false ->
  occurs "010" key = false ->
  occurs "010" value = false ->
  truthy key = true ->
  truthy (up_to "=" value) = true ->
  trim key <> "__proto__" ->
  let config :=
    loadEnvConfig (Content (text ++ String "010" (key ++ String "=" value))) in
  lookup (trim key) config = Some (trim (up_to "=" value)) /\
  (forall k, k <> trim key ->
             lookup k config = lookup k (loadEnvConfig (Content text))).
Proof. apply lookup_after_last_line. Qed.

Lemma loadEnvConfig_last_line_wins_witness :
  lookup "RPC_URL"
         (loadEnvConfig
            (Content ("RPC_URL=http://old" ++ String "010"
                        (" RPC_URL " ++ String "=" " https://node/?key=abc "))))
  = Some "https://node/?key".
Proof.
  apply (@loadEnvConfig_last_line_wins
           "RPC_URL=http://old" " RPC_URL " " https://node/?key=abc ");
    try reflexivity.
  discriminate.
Defined.

(** A line that makes no assignment. *)
Lemma parse_line_ignored envVars line :
  occurs "=" line = false \/
  (exists r, line = String "=" r) \/
  (exists k r, occurs "=" k = false /\
               (line = k ++ "=" \/ line = k ++ String "=" (String "=" r))) ->
  parse_line envVars line = envVars.
Proof.
  unfold parse_line.
  intros [H | [(r & ->) | (k & r & Hk & [-> | ->])]].
  - now rewrite (split_no_sep _ _ H).
  - simpl. pose proof (split_nonempty "=" r) as Hne.
    destruct (split "=" r); [contradiction | reflexivity].
  - change (k ++ "=") with (k ++ String "=" EmptyString).
    rewrite split_app_sep, (split_no_sep _ _ Hk). simpl.
    now rewrite andb_false_r.
  - rewrite split_app_sep, (split_no_sep _ _ Hk). simpl.
    now rewrite andb_false_r.
Qed.

(** X3. A line without ["="] (a comment, a blank line), a line that
    starts with ["="], and a line whose value is empty ([KEY=] or
    [KEY==...]) change nothing: the file reads as if the line were not
    there. *)
Theorem loadEnvConfig_ignores_line (before after line : string) :
  occurs "010" line = false ->
  occurs "=" line = false \/
  (exists r, line = String "=" r) \/
  (exists k r, occurs "=" k = false /\
               (line = k ++ "=" \/ line = k ++ String "=" (String "=" r))) ->
  loadEnvConfig
    (Content (before ++ String "010" (line ++ String "010" after)))
  = loadEnvConfig (Content (before ++ String "010" after)).
Proof.
  intros Hn Hline. unfold loadEnvConfig. simpl.
  rewrite !split_app_sep, !fold_left_app, (split_no_sep _ _ Hn). simpl.
  now rewrite (parse_line_ignored _ Hline).
Qed.

Lemma loadEnvConfig_ignores_line_witness :
  loadEnvConfig
    (Content ("PORT=8080" ++ String "010"
                ("# Cron Configuration" ++ String "010" "BATCH_SIZE=50")))
  = loadEnvConfig (Content ("PORT=8080" ++ String "010" "BATCH_SIZE=50")).
Proof.
  apply (@loadEnvConfig_ignores_line "PORT=8080" "BATCH_SIZE=50"
                                     "# Cron Configuration");
    [reflexivity | left; reflexivity].
Defined.

Lemma trim_piece_clean line p :
  occurs "010" line = false -> In p (split "=" line) -> clean (trim p).
Proof.
  intros Hline Hp. unfold clean. split; [apply trim_idempotent |].
  split.
  - destruct (occurs "=" (trim p)) eqn:E; [| reflexivity].
    apply trim_occurs in E.
    now rewrite (split_pieces_no_sep _ _ _ Hp) in E.
  - destruct (occurs "010" (trim p)) eqn:E; [| reflexivity].
    apply trim_occurs in E.
    apply (split_pieces_occurs _ _ _ _ Hp) in E. congruence.
Qed.

Lemma parse_line_clean envVars line :
  occurs "010" line = false ->
  Forall (fun kv => clean (fst kv) /\ clean (snd kv)
                    /\ fst kv <> "__proto__") envVars ->
  Forall (fun kv => clean (fst kv) /\ clean (snd kv)
                    /\ fst kv <> "__proto__") (parse_line envVars line).
Proof.
  intros Hline Henv. unfold parse_line.
  destruct (split "=" line) as [| key [| value rest]] eqn:E; try exact Henv.
  destruct (truthy key && truthy value); [| exact Henv].
  unfold assign. destruct (String.eqb_spec (trim key) "__proto__") as [| Hne];
    [exact Henv |].
  constructor; [| exact Henv]. simpl.
  repeat split; try exact Hne;
    apply (trim_piece_clean line); try exact Hline; rewrite E; simpl; auto.
Qed.

(** X4. Every key and every value of the configuration read from a file
    is trimmed and contains neither ["="] nor a line feed, and no key is
    ["__proto__"]. *)
Theorem loadEnvConfig_entries_clean (f : file_read) (k v : string) :
  In (k, v) (loadEnvConfig f) ->
  trim k = k /\ trim v = v /\
  occurs "=" k = false /\ occurs "=" v = false /\
  occurs "010" k = false /\ occurs "010" v = false /\
  k <> "__proto__".
Proof.
  assert (Hall : Forall (fun kv => clean (fst kv) /\ clean (snd kv)
                                   /\ fst kv <> "__proto__")
                        (loadEnvConfig f)).
  { unfold loadEnvConfig. destruct f as [| m | text]; simpl;
      try constructor.
    assert (Hlines : forall line, In line (split "010" text) ->
                                  occurs "010" line = false)
      by (intros line; apply split_pieces_no_sep).
    revert Hlines.
    generalize (split "010" text) as lines.
    assert (Hnil : Forall (fun kv : string * string =>
                             clean (fst kv) /\ clean (snd kv)
                             /\ fst kv <> "__proto__") [])
      by constructor.
    revert Hnil. generalize (@nil (string * string)) as envVars.
    intros envVars Henv lines. revert envVars Henv.
    induction lines as [| line lines IH]; intros envVars Henv Hlines; simpl;
      [exact Henv |].
    apply IH; [| intros l Hl; apply Hlines; now right].
    apply parse_line_clean; [apply Hlines; now left | exact Henv]. }
  intros Hin. rewrite Forall_forall in Hall.
  destruct (Hall _ Hin) as ((Hk1 & Hk2 & Hk3) & (Hv1 & Hv2 & Hv3) & Hp).
  simpl in *. auto 10.
Qed.

Lemma loadEnvConfig_entries_clean_witness :
  trim "https://node/?key" = "https://node/?key" /\
  occurs "=" "https://node/?key" = false.
Proof.
  destruct (@loadEnvConfig_entries_clean
              (Content " RPC_URL = https://node/?key=abc ")
              "RPC_URL" "https://node/?key" (or_introl eq_refl))
    as (_ & Hv & _ & He & _).
  split; assumption.
Defined.
End LoadFacts.

Section ParseIntFacts.
Import EnvFile.

(** A decimal digit. *)
Local Abbreviation is_decimal :=
  (fun c : ascii => (48 <=? Z.of_N (N_of_ascii c))
                    && (Z.of_N (N_of_ascii c) <=? 57)).

Lemma string_of_uint_digits d :
  all_chars is_decimal (NilEmpty.string_of_uint d) = true.
Proof. induction d; simpl; auto. Qed.

(* One step of [parse_digits] on a literal decimal digit. *)
Local Ltac read_digit :=
  cbn [NilEmpty.string_of_uint parse_digits Pos.of_uint_acc Pos.of_uint];
  try match goal with
      | |- context [digit_of ?c] =>
          let v := eval vm_compute in (digit_of c) in
          change (digit_of c) with v
      end;
  cbv beta iota;
  try match goal with
      | |- context [?k <? 10] => change (k <? 10) with true
      end;
  cbv beta iota.

Lemma parse_digits_acc d : forall p : positive,
  parse_digits 10 (NilEmpty.string_of_uint d) (Some (Zpos p))
  = Some (Zpos (Pos.of_uint_acc d p)).
Proof.
  induction d; intros p; read_digit; try reflexivity;
    match goal with
    | |- parse_digits _ _ (Some ?a) = Some (Zpos (Pos.of_uint_acc _ ?q)) =>
        replace a with (Zpos q) by lia
    end; apply IHd.
Qed.

Lemma parse_digits_zero d :
  parse_digits 10 (NilEmpty.string_of_uint d) (Some 0)
  = Some (Z.of_N (Pos.of_uint d)).
Proof.
  induction d; read_digit; try reflexivity;
    try exact IHd; apply parse_digits_acc.
Qed.

Lemma parse_digits_uint d :
  d <> Decimal.Nil ->
  parse_digits 10 (NilEmpty.string_of_uint d) None = Some (Z.of_uint d).
Proof.
  unfold Z.of_uint.
  destruct d; intros Hd; try contradiction; read_digit;
    try apply parse_digits_zero; apply parse_digits_acc.
Qed.

(* Runs [parseInt] up to its call of [parse_digits]. *)
Local Ltac run_parseInt :=
  cbn -[parse_digits Z.mul Z.of_uint Z.opp NilEmpty.string_of_uint].

(** Reading back the decimal digits of a number, with no sign. *)
Lemma parseInt_uint d :
  d <> Decimal.Nil ->
  parseInt (NilEmpty.string_of_uint d) = Num (Z.of_uint d).
Proof.
  intros Hd. pose proof (parse_digits_uint Hd) as Hp.
  unfold parseInt.
  destruct d as [| d | d | d | d | d | d | d | d | d | d];
    try contradiction; cbn [NilEmpty.string_of_uint] in *; run_parseInt;
    try (rewrite Hp; f_equal; lia).
  (* a leading zero: the next code unit is not an "x" *)
  destruct d; cbn [NilEmpty.string_of_uint] in *; run_parseInt;
    rewrite Hp; f_equal; lia.
Qed.

Lemma parseInt_negative d :
  d <> Decimal.Nil ->
  parseInt (String "-" (NilEmpty.string_of_uint d)) = Num (- Z.of_uint d).
Proof.
  intros Hd. pose proof (parse_digits_uint Hd) as Hp.
  unfold parseInt. run_parseInt.
  destruct d as [| d | d | d | d | d | d | d | d | d | d];
    try contradiction; cbn [NilEmpty.string_of_uint] in *; run_parseInt;
    try (rewrite Hp; f_equal; lia).
  destruct d; cbn [NilEmpty.string_of_uint] in *; run_parseInt;
    rewrite Hp; f_equal; lia.
Qed.

(** [parseInt] reads back the decimal text of every integer. *)
Lemma parseInt_toString z : parseInt (toString z) = Num z.
Proof.
  unfold toString. destruct z as [| p | p]; [reflexivity | |];
    simpl Z.to_int; simpl NilZero.string_of_int;
    pose proof (DecimalPos.Unsigned.to_uint_nonnil p) as Hnn;
    pose proof (DecimalPos.Unsigned.of_to p) as Hof;
    unfold NilZero.string_of_uint;
    destruct (Pos.to_uint p) eqn:E; try contradiction;
    rewrite <- E in *.
  all: try (rewrite parseInt_uint by exact Hnn;
            unfold Z.of_uint; rewrite Hof; reflexivity).
  all: rewrite parseInt_negative by exact Hnn;
       unfold Z.of_uint; rewrite Hof; reflexivity.
Qed.

Lemma toString_plain z :
  0 <= z ->
  all_chars is_decimal (toString z) = true.
Proof.
  intros Hz. unfold toString. destruct z as [| p | p]; [reflexivity | | lia].
  simpl. unfold NilZero.string_of_uint.
  pose proof (string_of_uint_digits (Pos.to_uint p)).
  destruct (Pos.to_uint p); auto.
Qed.

Lemma decimal_not_space c : is_decimal c = true -> negb (is_space c) = true.
Proof.
  unfold is_space. intros H. apply andb_true_iff in H.
  destruct H as (H1 & H2). apply Z.leb_le in H1, H2.
  apply negb_true_iff.
  repeat (apply orb_false_iff; split);
    try (apply andb_false_iff; right; apply Z.leb_gt; lia);
    apply Z.eqb_neq; lia.
Qed.

Lemma toString_facts z :
  0 <= z ->
  trim (toString z) = toString z /\
  up_to "=" (toString z) = toString z /\
  occurs "010" (toString z) = false /\
  truthy (toString z) = true.
Proof.
  intros Hz. pose proof (toString_plain Hz) as Hd.
  assert (Heq : occurs "=" (toString z) = false)
    by (apply (all_chars_occurs _ _ _ Hd); reflexivity).
  repeat split.
  - apply trim_no_space.
    apply (all_chars_weaken _ _ _ decimal_not_space Hd).
  - clear Hd. induction (toString z) as [| c s IH]; simpl in *;
      [reflexivity |].
    apply orb_false_iff in Heq. destruct Heq as (Hc & Hs).
    now rewrite Hc, IH.
  - apply (all_chars_occurs _ _ _ Hd). reflexivity.
  - unfold toString. destruct z as [| p | p]; [reflexivity | | lia].
    simpl. unfold NilZero.string_of_uint.
    pose proof (DecimalPos.Unsigned.to_uint_nonnil p).
    destruct (Pos.to_uint p); try contradiction; reflexivity.
Qed.
End ParseIntFacts.

Section ConfigFacts.
Import EnvFile.

(** The two numbers [getConfig] settles on. *)
Lemma getConfig_fields (parsedPort parsedBatchSize : js_number) :
  exists cfg,
    Config.getConfig parsedPort parsedBatchSize = Normal cfg /\
    Config.PORT cfg
    = (let p := or_default parsedPort 3001 in
       if (p <? 1) || (p >? 65535) then 3001 else p) /\
    Config.BATCH_SIZE cfg
    = (let b := or_default parsedBatchSize 100 in
       if (b <? 1) || (b >? 1000) then 100 else b) /\
    (parsedPort = NaN -> parsedBatchSize = NaN -> Config.warnings cfg = []).
Proof.
  unfold Config.getConfig, Config.validate.
  destruct ((or_default parsedPort 3001 <? 1)
            || (or_default parsedPort 3001 >? 65535)) eqn:Ep,
           ((or_default parsedBatchSize 100 <? 1)
            || (or_default parsedBatchSize 100 >? 1000)) eqn:Eb;
    (eexists; split; [reflexivity |]); simpl; rewrite ?Ep, ?Eb;
    repeat split; intros -> ->; simpl in *; discriminate.
Qed.

(** X1. Whatever the configuration file holds, and also when it is missing
    or cannot be read, the process gets a configuration: the port is
    between 1 and 65535 and the batch size between 1 and 1000; a key that
    the file does not set gets its default (3001, 100). With no readable
    file both defaults apply and [getConfig] adds no warning of its own,
    [loadEnvConfig] having written to the console that the file was not
    found (a warning), or the read error (an error, then a log line); with a
    file that is read, [loadEnvConfig] logs that it was loaded. *)
Theorem configValues_bounds (f : file_read) :
  exists cfg,
    configValues f = Normal cfg /\
    1 <= Config.PORT cfg <= 65535 /\
    1 <= Config.BATCH_SIZE cfg <= 1000 /\
    (lookup "PORT" (loadEnvConfig f) = None -> Config.PORT cfg = 3001) /\
    (lookup "BATCH_SIZE" (loadEnvConfig f) = None ->
     Config.BATCH_SIZE cfg = 100) /\
    ((forall text, f <> Content text) -> cfg = Config.mkConfig 3001 100 []) /\
    (f = NoFile ->
     snd (loadEnvConfig_logged f)
     = [ConsoleWarn "Warning: config.env file not found, using defaults"]) /\
    (forall message, f = ReadFails message ->
     snd (loadEnvConfig_logged f)
     = [ConsoleError ("Error loading environment configuration: " ++ message);
        ConsoleLog "Using default configuration values"]) /\
    (forall text, f = Content text ->
     snd (loadEnvConfig_logged f)
     = [ConsoleLog "Environment configuration loaded successfully"]).
Proof.
  unfold configValues.
  destruct (getConfig_fields
              (parseInt_property "PORT" (loadEnvConfig f))
              (parseInt_property "BATCH_SIZE" (loadEnvConfig f)))
    as (cfg & Hcfg & Hport & Hbatch & Hwarn).
  exists cfg. split; [exact Hcfg |].
  split.
  { rewrite Hport. cbv zeta.
    destruct (Z.ltb_spec (or_default (parseInt_property "PORT" (loadEnvConfig f)) 3001) 1),
             (Z.gtb_spec (or_default (parseInt_property "PORT" (loadEnvConfig f)) 3001) 65535);
      simpl; lia. }
  split.
  { rewrite Hbatch. cbv zeta.
    destruct (Z.ltb_spec (or_default (parseInt_property "BATCH_SIZE" (loadEnvConfig f)) 100) 1),
             (Z.gtb_spec (or_default (parseInt_property "BATCH_SIZE" (loadEnvConfig f)) 100) 1000);
      simpl; lia. }
  split; [| split; [| split; [| split; [| split]]]].
  - intros Hnone. rewrite Hport. unfold parseInt_property. rewrite Hnone.
    reflexivity.
  - intros Hnone. rewrite Hbatch. unfold parseInt_property. rewrite Hnone.
    reflexivity.
  - intros Hf.
    assert (Hempty : loadEnvConfig f = [])
      by (destruct f as [| m | text]; try reflexivity;
          exfalso; exact (Hf text eq_refl)).
    rewrite Hempty in *.
    destruct cfg as [p b w]. simpl in *.
    rewrite Hport, Hbatch, Hwarn by reflexivity. reflexivity.
  - intros ->. reflexivity.
  - intros message ->. reflexivity.
  - intros text ->. reflexivity.
Qed.

Lemma configValues_bounds_witness :
  exists cfg,
    configValues NoFile = Normal cfg /\
    cfg = Config.mkConfig 3001 100 [] /\
    snd (loadEnvConfig_logged NoFile)
    = [ConsoleWarn "Warning: config.env file not found, using defaults"].
Proof.
  destruct (configValues_bounds NoFile)
    as (cfg & Hcfg & _ & _ & _ & _ & Hd & Hwarned & _).
  exists cfg. split; [exact Hcfg |].
  split; [apply Hd; discriminate | apply Hwarned; reflexivity].
Defined.

(** The number read for [key] when the last line of the file sets it to
    the decimal text of [n]. *)
Lemma parseInt_property_last_line text key n :
  0 <= n ->
  occurs "=" key = false -> occurs "010" key = false ->
  truthy key = true -> trim key = key -> key <> "__proto__" ->
  let config :=
    loadEnvConfig
      (Content (text ++ String "010" (key ++ String "=" (toString n)))) in
  parseInt_property key config = Num n /\
  (forall k, k <> key ->
             parseInt_property k config
             = parseInt_property k (loadEnvConfig (Content text))).
Proof.
  intros Hn Hk Hkn Htk Htrim Hproto config.
  destruct (toString_facts Hn) as (Ht & Hu & Hnl & Htr).
  destruct (@lookup_after_last_line text key (toString n) Hk Hkn Hnl Htk
              ltac:(now rewrite Hu) ltac:(now rewrite Htrim))
    as (Hset & Hother).
  fold config in Hset, Hother. rewrite Htrim, Hu, Ht in *.
  unfold parseInt_property. split.
  - rewrite Hset. apply parseInt_toString.
  - intros k Hne. now rewrite (Hother k Hne).
Qed.

(** X5. A last line [BATCH_SIZE=n] with [n] written in decimal and between
    1 and 1000 makes the batch size [n], and a last line [PORT=p] with [p]
    between 1 and 65535 makes the port [p], whatever the lines before them
    say; the other of the two settings is what the lines before give. *)
Theorem configValues_reads_last_line (text : string) :
  (forall n, 1 <= n <= 1000 ->
     exists cfg cfg0,
       configValues
         (Content (text ++ String "010"
                     ("BATCH_SIZE" ++ String "=" (toString n))))
       = Normal cfg /\
       configValues (Content text) = Normal cfg0 /\
       Config.BATCH_SIZE cfg = n /\
       Config.PORT cfg = Config.PORT cfg0) /\
  (forall p, 1 <= p <= 65535 ->
     exists cfg cfg0,
       configValues
         (Content (text ++ String "010" ("PORT" ++ String "=" (toString p))))
       = Normal cfg /\
       configValues (Content text) = Normal cfg0 /\
       Config.PORT cfg = p /\
       Config.BATCH_SIZE cfg = Config.BATCH_SIZE cfg0).
Proof.
  split.
  - intros n Hn.
    destruct (@parseInt_property_last_line text "BATCH_SIZE" n
                ltac:(lia) eq_refl eq_refl eq_refl eq_refl ltac:(discriminate))
      as (Hset & Hother).
    specialize (Hother "PORT" ltac:(discriminate)).
    unfold configValues. rewrite Hset, Hother.
    destruct (getConfig_fields
                (parseInt_property "PORT" (loadEnvConfig (Content text)))
                (Num n)) as (cfg & -> & Hp & Hb & _).
    destruct (getConfig_fields
                (parseInt_property "PORT" (loadEnvConfig (Content text)))
                (parseInt_property "BATCH_SIZE" (loadEnvConfig (Content text))))
      as (cfg0 & -> & Hp0 & _).
    exists cfg, cfg0. repeat split; [| congruence].
    rewrite Hb. cbv zeta.
    assert (Hor : or_default (Num n) 100 = n)
      by (destruct n; simpl; try reflexivity; lia).
    rewrite Hor.
    destruct (Z.ltb_spec n 1), (Z.gtb_spec n 1000); simpl; lia.
  - intros p Hp.
    destruct (@parseInt_property_last_line text "PORT" p
                ltac:(lia) eq_refl eq_refl eq_refl eq_refl ltac:(discriminate))
      as (Hset & Hother).
    specialize (Hother "BATCH_SIZE" ltac:(discriminate)).
    unfold configValues. rewrite Hset, Hother.
    destruct (getConfig_fields
                (Num p)
                (parseInt_property "BATCH_SIZE" (loadEnvConfig (Content text))))
      as (cfg & -> & Hpt & Hb & _).
    destruct (getConfig_fields
                (parseInt_property "PORT" (loadEnvConfig (Content text)))
                (parseInt_property "BATCH_SIZE" (loadEnvConfig (Content text))))
      as (cfg0 & -> & _ & Hb0 & _).
    exists cfg, cfg0. repeat split; [| congruence].
    rewrite Hpt. cbv zeta.
    assert (Hor : or_default (Num p) 3001 = p)
      by (destruct p; simpl; try reflexivity; lia).
    rewrite Hor.
    destruct (Z.ltb_spec p 1), (Z.gtb_spec p 65535); simpl; lia.
Qed.

Lemma configValues_reads_last_line_witness :
  exists cfg cfg0,
    configValues
      (Content ("BATCH_SIZE=5000" ++ String "010"
                  ("BATCH_SIZE" ++ String "=" (toString 250))))
    = Normal cfg /\
    configValues (Content "BATCH_SIZE=5000") = Normal cfg0 /\
    Config.BATCH_SIZE cfg = 250 /\
    Config.PORT cfg = Config.PORT cfg0.
Proof.
  apply (proj1 (configValues_reads_last_line "BATCH_SIZE=5000") 250). lia.
Defined.
End ConfigFacts.

(* ===================================================================== *)
(** ** Retries of the connection, for any arguments *)
(* ===================================================================== *)

Section RetryFacts.
Import Bootstrap.
Variable PRIVATE_KEY : option string.
Variable env : nat -> attempt_env.
Hypothesis Hkey : key_missing PRIVATE_KEY = false.

Local Abbreviation init := (initializeWeb3 PRIVATE_KEY env).
Local Abbreviation backoff := (fun k : nat => 2 ^ Z.of_nat k * 1000).

(** The three ways an attempt ends, with the key present. *)
Lemma init_connects retryCount maxRetries isOwner :
  connect (env retryCount) = Normal isOwner ->
  init retryCount maxRetries
  = (true, EvAttempt retryCount :: if isOwner then [] else [EvWarnNotOwner]).
Proof. intros H. simp initializeWeb3. rewrite Hkey. simpl. now rewrite H. Qed.

Lemma init_retries retryCount maxRetries m :
  connect (env retryCount) = Throw m ->
  (retryCount < maxRetries)%nat ->
  init retryCount maxRetries
  = (fst (init (S retryCount) maxRetries),
     EvAttempt retryCount :: EvSleep (backoff retryCount)
       :: snd (init (S retryCount) maxRetries)).
Proof.
  intros H Hlt. rewrite initializeWeb3_equation_1. rewrite Hkey. simpl.
  rewrite H. simpl.
  destruct (lt_dec retryCount maxRetries); [reflexivity | contradiction].
Qed.

Lemma init_gives_up retryCount maxRetries m :
  connect (env retryCount) = Throw m ->
  ~ (retryCount < maxRetries)%nat ->
  init retryCount maxRetries = (false, [EvAttempt retryCount]).
Proof.
  intros H Hlt. rewrite initializeWeb3_equation_1. rewrite Hkey. simpl.
  rewrite H. simpl.
  destruct (lt_dec retryCount maxRetries); [contradiction | reflexivity].
Qed.

Lemma init_schedule fuel : forall retryCount maxRetries,
  (maxRetries - retryCount = fuel)%nat ->
  (retryCount <= maxRetries)%nat ->
  let r := init retryCount maxRetries in
  let n := List.length (attempts (snd r)) in
  (1 <= n <= S fuel)%nat /\
  attempts (snd r) = seq retryCount n /\
  sleeps (snd r) = map backoff (seq retryCount (n - 1)) /\
  0 <= total_sleep (snd r)
    <= (2 ^ Z.of_nat maxRetries - 2 ^ Z.of_nat retryCount) * 1000.
Proof.
  induction fuel as [| fuel IH]; intros retryCount maxRetries Hfuel Hle;
    destruct (connect (env retryCount)) as [isOwner | m] eqn:E.
  - rewrite (@init_connects retryCount maxRetries isOwner E).
    assert (2 ^ Z.of_nat retryCount <= 2 ^ Z.of_nat maxRetries)
      by (apply Z.pow_le_mono_r; lia).
    destruct isOwner; simpl; unfold total_sleep; simpl;
      repeat split; try reflexivity; lia.
  - rewrite (@init_gives_up retryCount maxRetries m E) by lia.
    assert (2 ^ Z.of_nat retryCount <= 2 ^ Z.of_nat maxRetries)
      by (apply Z.pow_le_mono_r; lia).
    simpl; unfold total_sleep; simpl; repeat split; try reflexivity; lia.
  - rewrite (@init_connects retryCount maxRetries isOwner E).
    assert (2 ^ Z.of_nat retryCount <= 2 ^ Z.of_nat maxRetries)
      by (apply Z.pow_le_mono_r; lia).
    destruct isOwner; simpl; unfold total_sleep; simpl;
      repeat split; try reflexivity; lia.
  - rewrite (@init_retries retryCount maxRetries m E) by lia.
    specialize (IH (S retryCount) maxRetries ltac:(lia) ltac:(lia)).
    cbv zeta in IH. destruct IH as (Hn & Hatt & Hsl & Htot).
    set (r := init (S retryCount) maxRetries) in *.
    cbv zeta. cbn [snd attempts sleeps flat_map app].
    fold (attempts (snd r)). fold (sleeps (snd r)).
    cbn [List.length].
    destruct (List.length (attempts (snd r))) as [| n'] eqn:En; [lia |].
    split; [lia |].
    split; [rewrite Hatt; reflexivity |].
    split.
    + rewrite Hsl. cbn [Nat.sub seq map]. rewrite Nat.sub_0_r. reflexivity.
    + unfold total_sleep in *. cbn [sleeps flat_map app fold_right].
      fold (sleeps (snd r)).
      replace (Z.of_nat (S retryCount)) with (Z.of_nat retryCount + 1) in Htot
        by lia.
      rewrite Z.pow_add_r in Htot by lia.
      assert (0 < 2 ^ Z.of_nat retryCount) by (apply Z.pow_pos_nonneg; lia).
      lia.
Qed.

Lemma init_true_iff fuel : forall retryCount maxRetries,
  (maxRetries - retryCount = fuel)%nat ->
  (retryCount <= maxRetries)%nat ->
  fst (init retryCount maxRetries) = true
  <-> exists k isOwner,
        (retryCount <= k <= maxRetries)%nat /\
        connect (env k) = Normal isOwner.
Proof.
  induction fuel as [| fuel IH]; intros retryCount maxRetries Hfuel Hle;
    destruct (connect (env retryCount)) as [isOwner | m] eqn:E.
  - rewrite (@init_connects retryCount maxRetries isOwner E). simpl. split; [intros _ | reflexivity].
    exists retryCount, isOwner. split; [lia | exact E].
  - rewrite (@init_gives_up retryCount maxRetries m E) by lia. simpl.
    split; [discriminate |].
    intros (k & o & Hk & Ho). assert (k = retryCount) by lia. congruence.
  - rewrite (@init_connects retryCount maxRetries isOwner E). simpl. split; [intros _ | reflexivity].
    exists retryCount, isOwner. split; [lia | exact E].
  - rewrite (@init_retries retryCount maxRetries m E) by lia. simpl.
    rewrite (IH (S retryCount) maxRetries) by lia.
    split; intros (k & o & Hk & Ho); exists k, o; (split; [| exact Ho]).
    + lia.
    + destruct (Nat.eq_dec k retryCount) as [-> | Hne]; [congruence | lia].
Qed.

Lemma init_first_success fuel : forall retryCount k maxRetries isOwner,
  (k - retryCount = fuel)%nat ->
  (retryCount <= k <= maxRetries)%nat ->
  (forall j, (retryCount <= j < k)%nat -> exists m, connect (env j) = Throw m) ->
  connect (env k) = Normal isOwner ->
  let r := init retryCount maxRetries in
  fst r = true /\
  attempts (snd r) = seq retryCount (S fuel) /\
  sleeps (snd r) = map backoff (seq retryCount fuel).
Proof.
  induction fuel as [| fuel IH];
    intros retryCount k maxRetries isOwner Hfuel Hk Hbefore Hconn.
  - assert (k = retryCount) by lia. subst k.
    cbv zeta. rewrite (@init_connects retryCount maxRetries isOwner Hconn).
    destruct isOwner; repeat split; reflexivity.
  - destruct (Hbefore retryCount ltac:(lia)) as (m & Hm).
    cbv zeta. rewrite (@init_retries retryCount maxRetries m Hm) by lia.
    destruct (IH (S retryCount) k maxRetries isOwner ltac:(lia) ltac:(lia))
      as (Ht & Ha & Hs); [intros j Hj; apply Hbefore; lia | exact Hconn |].
    cbn [fst snd attempts sleeps flat_map app].
    fold (attempts (snd (init (S retryCount) maxRetries))).
    fold (sleeps (snd (init (S retryCount) maxRetries))).
    rewrite Ha, Hs. split; [exact Ht | split; reflexivity].
Qed.
End RetryFacts.

(** X6. For any [retryCount <= maxRetries <= 22] and with a key present,
    [initializeWeb3(retryCount, maxRetries)] makes between 1 and
    [maxRetries - retryCount + 1] attempts, numbered [retryCount],
    [retryCount + 1], ... with a wait of [2^k * 1000] ms after each failed
    attempt [k] but the last: every delay asked for is within the range of a
    timer, so it is the time waited. The waits add up to at most
    [(2^maxRetries - 2^retryCount) * 1000] ms. (From attempt 22 on the
    delay computed exceeds [TIMEOUT_MAX] and is not the time waited.) *)
Theorem initializeWeb3_schedule_any_arguments
  (PRIVATE_KEY : option string) (env : nat -> Bootstrap.attempt_env)
  (retryCount maxRetries : nat) :
  Bootstrap.key_missing PRIVATE_KEY = false ->
  (retryCount <= maxRetries)%nat ->
  (maxRetries <= 22)%nat ->
  let r := Bootstrap.initializeWeb3 PRIVATE_KEY env retryCount maxRetries in
  let n := List.length (Bootstrap.attempts (snd r)) in
  (1 <= n <= S (maxRetries - retryCount))%nat /\
  Bootstrap.attempts (snd r) = seq retryCount n /\
  Bootstrap.sleeps (snd r)
  = map (fun k : nat => 2 ^ Z.of_nat k * 1000) (seq retryCount (n - 1)) /\
  map Timer.waited (Bootstrap.sleeps (snd r))
  = map (fun k : nat => 2 ^ Z.of_nat k * 1000) (seq retryCount (n - 1)) /\
  0 <= fold_right Z.add 0 (map Timer.waited (Bootstrap.sleeps (snd r)))
    <= (2 ^ Z.of_nat maxRetries - 2 ^ Z.of_nat retryCount) * 1000.
Proof.
  intros Hkey Hle Hmax r n.
  destruct (@init_schedule PRIVATE_KEY env Hkey (maxRetries - retryCount)%nat
              retryCount maxRetries eq_refl Hle)
    as (Hn & Hatt & Hsl & Htot).
  fold r in Hn, Hatt, Hsl, Htot. fold n in Hn, Hatt, Hsl.
  assert (Hwaited : map Timer.waited (Bootstrap.sleeps (snd r))
                    = Bootstrap.sleeps (snd r)).
  { rewrite Hsl, map_map. apply map_ext_in. intros k Hk.
    apply in_seq in Hk.
    assert (Hlow : 1 <= 2 ^ Z.of_nat k)
      by (pose proof (Z.pow_pos_nonneg 2 (Z.of_nat k)); lia).
    assert (Hhigh : 2 ^ Z.of_nat k <= 2 ^ 21)
      by (apply Z.pow_le_mono_r; lia).
    change (2 ^ 21) with 2097152 in Hhigh.
    unfold Timer.waited, Timer.TIMEOUT_MAX.
    destruct (Z.ltb_spec (2 ^ Z.of_nat k * 1000) 1),
             (Z.gtb_spec (2 ^ Z.of_nat k * 1000) 2147483647);
      simpl; lia. }
  split; [exact Hn |]. split; [exact Hatt |]. split; [exact Hsl |].
  split; [now rewrite Hwaited |].
  rewrite Hwaited. exact Htot.
Qed.

Lemma initializeWeb3_schedule_any_arguments_witness :
  map Timer.waited
      (Bootstrap.sleeps
         (snd (Bootstrap.initializeWeb3
                 (Some "0xkey")
                 (fun _ => Bootstrap.mkAttempt (Throw "no network")
                                               (Normal "0xabc") Pending)
                 2 5)))
  = [4000; 8000; 16000].
Proof.
  destruct (@initializeWeb3_schedule_any_arguments
              (Some "0xkey")
              (fun _ => Bootstrap.mkAttempt (Throw "no network")
                                            (Normal "0xabc") Pending)
              2 5 eq_refl ltac:(lia) ltac:(lia))
    as (_ & _ & _ & Hwaited & _).
  exact Hwaited.
Defined.

(** X7. With a key present and [retryCount <= maxRetries],
    [initializeWeb3] returns [true] exactly when one of the attempts
    numbered [retryCount] to [maxRetries] connects; it stops at the first
    attempt [k] that does, so it makes [k - retryCount + 1] attempts and the
    [k - retryCount] waits before them, and none after. *)
Theorem initializeWeb3_stops_at_first_success
  (PRIVATE_KEY : option string) (env : nat -> Bootstrap.attempt_env)
  (retryCount maxRetries : nat) :
  Bootstrap.key_missing PRIVATE_KEY = false ->
  (retryCount <= maxRetries)%nat ->
  let r := Bootstrap.initializeWeb3 PRIVATE_KEY env retryCount maxRetries in
  (fst r = true
   <-> exists k isOwner,
         (retryCount <= k <= maxRetries)%nat /\
         Bootstrap.connect (env k) = Normal isOwner) /\
  (forall k isOwner,
     (retryCount <= k <= maxRetries)%nat ->
     (forall j, (retryCount <= j < k)%nat ->
                exists m, Bootstrap.connect (env j) = Throw m) ->
     Bootstrap.connect (env k) = Normal isOwner ->
     Bootstrap.attempts (snd r) = seq retryCount (S (k - retryCount)) /\
     Bootstrap.sleeps (snd r)
     = map (fun j : nat => 2 ^ Z.of_nat j * 1000)
           (seq retryCount (k - retryCount))).
Proof.
  intros Hkey Hle r. split.
  - apply (@init_true_iff PRIVATE_KEY env Hkey (maxRetries - retryCount)%nat);
      [reflexivity | exact Hle].
  - intros k isOwner Hk Hbefore Hconn.
    destruct (@init_first_success PRIVATE_KEY env Hkey (k - retryCount)%nat
                retryCount k maxRetries isOwner eq_refl Hk Hbefore Hconn)
      as (_ & Ha & Hs).
    split; assumption.
Qed.

Lemma initializeWeb3_stops_at_first_success_witness :
  fst (Bootstrap.initializeWeb3
         (Some "0xkey")
         (fun k => if Nat.eqb k 2
                   then Bootstrap.mkAttempt (Normal "bsc") (Normal "0xabc")
                                            (Resolved "0xabc")
                   else Bootstrap.mkAttempt (Throw "no network")
                                            (Normal "0xabc") Pending)
         0 3)
  = true.
Proof.
  apply (@initializeWeb3_stops_at_first_success
           (Some "0xkey")
           (fun k => if Nat.eqb k 2
                     then Bootstrap.mkAttempt (Normal "bsc") (Normal "0xabc")
                                              (Resolved "0xabc")
                     else Bootstrap.mkAttempt (Throw "no network")
                                              (Normal "0xabc") Pending)
           0 3 eq_refl ltac:(lia)).
  exists 2%nat, true. split; [lia | reflexivity].
Defined.

(* ===================================================================== *)
(** ** The globals after the connection attempts *)
(* ===================================================================== *)

Section GlobalsFacts.
Import Bootstrap Startup.
Variable PRIVATE_KEY : option string.
Variable env : nat -> attempt_env.
Variable remote : Orchestrator.contract_api.

Local Abbreviation init_globals := (initializeWeb3_globals PRIVATE_KEY env remote).
Local Abbreviation assigned := (assignments remote).

(** All three globals hold a value, the contract being [remote]. *)
Local Abbreviation all_set :=
  (fun g : Orchestrator.globals =>
     Orchestrator.provider g = true /\ Orchestrator.wallet g = true /\
     Orchestrator.contract g = Some remote).

Lemma assignments_keep a g : all_set g -> all_set (assigned a g).
Proof.
  intros (Hp & Hw & Hc). unfold assignments.
  destruct (getNetwork a); [destruct (new_Wallet a) |]; simpl; auto.
Qed.

Lemma assignments_after_wallet a g net address :
  getNetwork a = Normal net -> new_Wallet a = Normal address ->
  all_set (assigned a g).
Proof. intros Hn Hw. unfold assignments. rewrite Hn, Hw. simpl. auto. Qed.

Lemma connect_passes_wallet a isOwner :
  connect a = Normal isOwner ->
  exists net address,
    getNetwork a = Normal net /\ new_Wallet a = Normal address.
Proof.
  unfold connect. destruct (getNetwork a) as [net |]; [| discriminate].
  destruct (new_Wallet a) as [address |]; [| discriminate].
  intros _. now exists net, address.
Qed.

Lemma init_globals_step retryCount maxRetries g :
  init_globals retryCount maxRetries g
  = if key_missing PRIVATE_KEY then (false, g)
    else match connect (env retryCount) with
         | Normal _ => (true, assigned (env retryCount) g)
         | Throw _ =>
             if lt_dec retryCount maxRetries
             then init_globals (S retryCount) maxRetries
                               (assigned (env retryCount) g)
             else (false, assigned (env retryCount) g)
         end.
Proof.
  rewrite initializeWeb3_globals_equation_1.
  destruct (key_missing PRIVATE_KEY); simpl; [reflexivity |].
  destruct (connect (env retryCount)); simpl; [reflexivity |].
  destruct (lt_dec retryCount maxRetries); reflexivity.
Qed.

Lemma init_step retryCount maxRetries :
  initializeWeb3 PRIVATE_KEY env retryCount maxRetries
  = if key_missing PRIVATE_KEY then (false, [])
    else match connect (env retryCount) with
         | Normal isOwner =>
             (true, EvAttempt retryCount
                      :: if isOwner then [] else [EvWarnNotOwner])
         | Throw _ =>
             if lt_dec retryCount maxRetries
             then (fst (initializeWeb3 PRIVATE_KEY env (S retryCount)
                                       maxRetries),
                   EvAttempt retryCount
                     :: EvSleep (2 ^ Z.of_nat retryCount * 1000)
                     :: snd (initializeWeb3 PRIVATE_KEY env (S retryCount)
                                            maxRetries))
             else (false, [EvAttempt retryCount])
         end.
Proof.
  rewrite initializeWeb3_equation_1.
  destruct (key_missing PRIVATE_KEY); simpl; [reflexivity |].
  destruct (connect (env retryCount)); simpl; [reflexivity |].
  destruct (lt_dec retryCount maxRetries); reflexivity.
Qed.

(** The two embeddings of [initializeWeb3] return the same boolean. *)
Lemma init_globals_same_result fuel : forall retryCount maxRetries g,
  (maxRetries - retryCount = fuel)%nat ->
  fst (init_globals retryCount maxRetries g)
  = fst (initializeWeb3 PRIVATE_KEY env retryCount maxRetries).
Proof.
  induction fuel as [| fuel IH]; intros retryCount maxRetries g Hfuel;
    rewrite init_globals_step, init_step;
    destruct (key_missing PRIVATE_KEY); try reflexivity;
    destruct (connect (env retryCount)); try reflexivity;
    destruct (lt_dec retryCount maxRetries); try reflexivity; try lia.
  simpl. apply IH. lia.
Qed.

Lemma init_globals_keep fuel : forall retryCount maxRetries g,
  (maxRetries - retryCount = fuel)%nat ->
  all_set g -> all_set (snd (init_globals retryCount maxRetries g)).
Proof.
  induction fuel as [| fuel IH]; intros retryCount maxRetries g Hfuel Hg;
    rewrite init_globals_step;
    destruct (key_missing PRIVATE_KEY); try exact Hg;
    destruct (connect (env retryCount));
    try (apply assignments_keep; exact Hg);
    destruct (lt_dec retryCount maxRetries);
    try (apply assignments_keep; exact Hg); try lia.
  apply IH; [lia | apply assignments_keep; exact Hg].
Qed.

Lemma init_globals_true fuel : forall retryCount maxRetries g,
  (maxRetries - retryCount = fuel)%nat ->
  fst (init_globals retryCount maxRetries g) = true ->
  all_set (snd (init_globals retryCount maxRetries g)).
Proof.
  induction fuel as [| fuel IH]; intros retryCount maxRetries g Hfuel;
    rewrite init_globals_step;
    destruct (key_missing PRIVATE_KEY); try discriminate;
    destruct (connect (env retryCount)) as [isOwner | m] eqn:E;
    try (intros _; destruct (connect_passes_wallet _ E) as (n & a & Hn & Ha);
         exact (assignments_after_wallet _ g Hn Ha));
    destruct (lt_dec retryCount maxRetries); try discriminate; try lia.
  apply IH. lia.
Qed.

Lemma init_globals_after_wallet fuel : forall retryCount k maxRetries g,
  (k - retryCount = fuel)%nat ->
  key_missing PRIVATE_KEY = false ->
  (retryCount <= k <= maxRetries)%nat ->
  (forall j, (retryCount <= j < k)%nat -> exists m, connect (env j) = Throw m) ->
  (exists net address,
     getNetwork (env k) = Normal net /\ new_Wallet (env k) = Normal address) ->
  all_set (snd (init_globals retryCount maxRetries g)).
Proof.
  induction fuel as [| fuel IH];
    intros retryCount k maxRetries g Hfuel Hkey Hk Hbefore (n & a & Hn & Ha);
    rewrite init_globals_step, Hkey.
  - assert (k = retryCount) by lia. subst k.
    pose proof (assignments_after_wallet (env retryCount) g Hn Ha) as Hset.
    destruct (connect (env retryCount)); [exact Hset |].
    destruct (lt_dec retryCount maxRetries); [| exact Hset].
    apply (@init_globals_keep (maxRetries - S retryCount)%nat);
      [reflexivity | exact Hset].
  - destruct (Hbefore retryCount ltac:(lia)) as (m & ->).
    destruct (lt_dec retryCount maxRetries); [| lia].
    apply (IH (S retryCount) k); try lia; try exact Hkey.
    + intros j Hj. apply Hbefore. lia.
    + now exists n, a.
Qed.
End GlobalsFacts.

Section ConnectedRun.
Import Orchestrator.
Variable BATCH_SIZE : Z.
Variable g : globals.
Variable c : contract_api.
Hypothesis Hprovider : provider g = true.
Hypothesis Hwallet : wallet g = true.
Hypothesis Hcontract : contract g = Some c.

(** With the three globals set, a run starts with the count query and
    does not stop at the connection check. *)
Lemma run_connected :
  (exists rest,
     trace (snd (distributeRewardsInBatches BATCH_SIZE g))
     = EvGetUsersLength :: rest) /\
  fst (distributeRewardsInBatches BATCH_SIZE g)
  <> Normal (Fatal "Web3 not initialized. Cannot proceed with distribution.").
Proof.
  destruct (getUSersLengh c) as [totalUsers | m | ] eqn:Hcount.
  - destruct (Z.eq_dec totalUsers 0) as [-> | Hnz].
    + rewrite (@run_no_users BATCH_SIZE g c Hprovider Hwallet Hcontract Hcount).
      split; [now eexists | discriminate].
    + rewrite (@run_summary BATCH_SIZE g c Hprovider Hwallet Hcontract
                            totalUsers Hcount Hnz).
      split; [now eexists | discriminate].
  - rewrite (@run_count_failed BATCH_SIZE g c Hprovider Hwallet Hcontract m)
      by (rewrite Hcount; reflexivity).
    split; [now eexists | discriminate].
  - rewrite (@run_count_failed BATCH_SIZE g c Hprovider Hwallet Hcontract
                               "Contract call timeout")
      by (rewrite Hcount; reflexivity).
    split; [now eexists | discriminate].
Qed.
End ConnectedRun.

(** X8. When [initializeWeb3] returns [true] (from any globals and for
    any arguments), [provider], [wallet] and [contract] are all set; since
    [startServer] schedules the cron job only in that case, a run started by
    the cron job always gets past the connection check: its first call is
    the count query and it never returns "Web3 not initialized. Cannot
    proceed with distribution.". *)
Theorem cron_runs_are_connected
  (PRIVATE_KEY : option string) (env : nat -> Bootstrap.attempt_env)
  (remote : Orchestrator.contract_api) (BATCH_SIZE : Z) :
  (forall retryCount maxRetries g0,
     let r := Startup.initializeWeb3_globals PRIVATE_KEY env remote
                                             retryCount maxRetries g0 in
     fst r = true ->
     Orchestrator.provider (snd r) = true /\
     Orchestrator.wallet (snd r) = true /\
     Orchestrator.contract (snd r) = Some remote) /\
  (Startup.cron_scheduled PRIVATE_KEY env remote = true ->
   let g := snd (Startup.startServer_web3 PRIVATE_KEY env remote) in
   (exists rest,
      Orchestrator.trace
        (snd (Orchestrator.distributeRewardsInBatches BATCH_SIZE g))
      = Orchestrator.EvGetUsersLength :: rest) /\
   fst (Orchestrator.distributeRewardsInBatches BATCH_SIZE g)
   <> Normal (Orchestrator.Fatal
                "Web3 not initialized. Cannot proceed with distribution.")).
Proof.
  split.
  - intros retryCount maxRetries g0 r Hr.
    apply (@init_globals_true PRIVATE_KEY env remote
                              (maxRetries - retryCount)%nat);
      [reflexivity | exact Hr].
  - intros Hr. cbv zeta.
    unfold Startup.cron_scheduled, Startup.startServer_web3 in *.
    destruct (@init_globals_true PRIVATE_KEY env remote 3%nat 0%nat 3%nat
                                 Startup.unset eq_refl Hr)
      as (Hp & Hw & Hc).
    apply (@run_connected BATCH_SIZE _ remote Hp Hw Hc).
Qed.

Lemma cron_runs_are_connected_witness :
  fst (Orchestrator.distributeRewardsInBatches
         100
         (snd (Startup.startServer_web3
                 (Some "0xkey")
                 (fun _ => Bootstrap.mkAttempt (Normal "bsc") (Normal "0xabc")
                                               (Resolved "0xabc"))
                 (Scenario.contract_rejecting 250 100))))
  <> Normal (Orchestrator.Fatal
               "Web3 not initialized. Cannot proceed with distribution.").
Proof.
  apply (proj2 (@cron_runs_are_connected
                  (Some "0xkey")
                  (fun _ => Bootstrap.mkAttempt (Normal "bsc") (Normal "0xabc")
                                                (Resolved "0xabc"))
                  (Scenario.contract_rejecting 250 100) 100)).
  reflexivity.
Defined.

(** X9. The globals are set by the first attempt that gets past network
    detection and wallet construction, whatever [contract.owner()] does
    afterwards and whatever [initializeWeb3] ends up returning: when the
    attempts before [k] fail and attempt [k] builds the wallet, all three
    globals are set on return, the boolean returned is the one computed by
    the retry schedule, and the trigger endpoints do not answer 503. *)
Theorem globals_set_once_wallet_is_built
  (PRIVATE_KEY : option string) (env : nat -> Bootstrap.attempt_env)
  (remote : Orchestrator.contract_api)
  (retryCount k maxRetries : nat) (g0 : Orchestrator.globals) :
  Bootstrap.key_missing PRIVATE_KEY = false ->
  (retryCount <= k <= maxRetries)%nat ->
  (forall j, (retryCount <= j < k)%nat ->
             exists m, Bootstrap.connect (env j) = Throw m) ->
  (exists net address,
     Bootstrap.getNetwork (env k) = Normal net /\
     Bootstrap.new_Wallet (env k) = Normal address) ->
  let r := Startup.initializeWeb3_globals PRIVATE_KEY env remote
                                          retryCount maxRetries g0 in
  Orchestrator.provider (snd r) = true /\
  Orchestrator.wallet (snd r) = true /\
  Orchestrator.contract (snd r) = Some remote /\
  Http.web3_missing (snd r) = false /\
  fst r = fst (Bootstrap.initializeWeb3 PRIVATE_KEY env retryCount maxRetries).
Proof.
  intros Hkey Hk Hbefore Hwallet r.
  destruct (@init_globals_after_wallet PRIVATE_KEY env remote
              (k - retryCount)%nat retryCount k maxRetries g0 eq_refl
              Hkey Hk Hbefore Hwallet) as (Hp & Hw & Hc).
  fold r in Hp, Hw, Hc.
  repeat split; try assumption.
  - unfold Http.web3_missing. now rewrite Hp, Hw, Hc.
  - apply (@init_globals_same_result PRIVATE_KEY env remote
                                     (maxRetries - retryCount)%nat).
    reflexivity.
Qed.

Lemma globals_set_once_wallet_is_built_witness :
  fst (Startup.startServer_web3
         (Some "0xkey")
         (fun _ => Bootstrap.mkAttempt (Normal "bsc") (Normal "0xabc") Pending)
         (Scenario.contract_rejecting 250 100))
  = false /\
  Http.web3_missing
    (snd (Startup.startServer_web3
            (Some "0xkey")
            (fun _ => Bootstrap.mkAttempt (Normal "bsc") (Normal "0xabc")
                                          Pending)
            (Scenario.contract_rejecting 250 100)))
  = false.
Proof.
  split; [reflexivity |].
  apply (@globals_set_once_wallet_is_built
           (Some "0xkey")
           (fun _ => Bootstrap.mkAttempt (Normal "bsc") (Normal "0xabc")
                                         Pending)
           (Scenario.contract_rejecting 250 100)
           0 0 3 Startup.unset eq_refl ltac:(lia)).
  - intros j Hj. lia.
  - now exists "bsc", "0xabc".
Defined.

(* ===================================================================== *)
(** ** Sizes of the batches, submissions and pauses *)
(* ===================================================================== *)

(** X10. With the batch size that [getConfig] settles on, whatever was
    configured, every batch of a run covers at least one user and at most
    [BATCH_SIZE <= 1000] users, and every batch but the last covers exactly
    [BATCH_SIZE] users. *)
Theorem configured_batches_are_bounded
  (parsedPort parsedBatchSize : js_number) (totalUsers : Z) :
  0 <= totalUsers ->
  exists cfg,
    Config.getConfig parsedPort parsedBatchSize = Normal cfg /\
    let size := Config.BATCH_SIZE cfg in
    1 <= size <= 1000 /\
    forall i,
      0 <= i < Orchestrator.total_batches size totalUsers ->
      let users := Orchestrator.endIndex size totalUsers i
                   - Orchestrator.startIndex size i + 1 in
      1 <= users <= size /\
      (i < Orchestrator.total_batches size totalUsers - 1 -> users = size).
Proof.
  intros Hn.
  destruct (getConfig_fields parsedPort parsedBatchSize)
    as (cfg & Hcfg & _ & Hb & _).
  exists cfg. split; [exact Hcfg |]. cbv zeta.
  assert (Hsize : 1 <= Config.BATCH_SIZE cfg <= 1000).
  { rewrite Hb. cbv zeta.
    destruct (Z.ltb_spec (or_default parsedBatchSize 100) 1),
             (Z.gtb_spec (or_default parsedBatchSize 100) 1000);
      simpl; lia. }
  split; [exact Hsize |]. intros i Hi.
  pose proof (@total_batches_bounds (Config.BATCH_SIZE cfg) totalUsers
                ltac:(lia)) as Hb'.
  unfold Orchestrator.endIndex, Orchestrator.startIndex.
  split; [| intros Hlast]; nia.
Qed.

Lemma configured_batches_are_bounded_witness :
  exists cfg,
    Config.getConfig NaN (Num 5000) = Normal cfg /\
    1 <= Config.BATCH_SIZE cfg <= 1000.
Proof.
  destruct (@configured_batches_are_bounded NaN (Num 5000) 250 ltac:(lia))
    as (cfg & Hcfg & Hsize & _).
  exists cfg. split; assumption.
Defined.

Section SubmissionFacts.
Import Orchestrator Outcome Pacing.
Variable BATCH_SIZE : Z.
Variable c : contract_api.
Variable totalUsers totalBatches : Z.
Hypothesis Hsize : 0 < BATCH_SIZE.

Local Abbreviation effect :=
  (batch_effect BATCH_SIZE c totalUsers totalBatches).
Local Abbreviation calls_of :=
  (fun l : list Z => flat_map (fun i => trace (effect i)) l).

(* Goes through the answers the contract can give to batch [i]. *)
Local Ltac answers i :=
  unfold batch_effect, process_batch, try_catch, bind, emit, lift, throw,
    push_failed, incr_failure, incr_success, ret, initial, confirmed;
  cbn [snd trace];
  destruct (estimateGas c (startIndex BATCH_SIZE i)
                        (endIndex BATCH_SIZE totalUsers i))
    as [gasEstimate | m | ]; cbn;
  [ destruct (distributeRewardsToAll c (startIndex BATCH_SIZE i)
                (endIndex BATCH_SIZE totalUsers i) (gas_limit gasEstimate))
      as [tx | m | ]; cbn;
    [ destruct (wait tx) as [[r |] | m | ]; cbn;
      [ destruct (status r =? 1); cbn;
        destruct (i <? totalBatches - 1); cbn | .. ]
    | .. ]
  | .. ].

Lemma effect_submits i :
  submits_for (startIndex BATCH_SIZE i) (trace (effect i))
  = match estimateGas c (startIndex BATCH_SIZE i)
                      (endIndex BATCH_SIZE totalUsers i) with
    | Resolved gasEstimate =>
        [EvSubmit (startIndex BATCH_SIZE i) (endIndex BATCH_SIZE totalUsers i)
                  (gas_limit gasEstimate)]
    | _ => []
    end.
Proof. unfold submits_for. answers i; rewrite ?Z.eqb_refl; reflexivity. Qed.

Lemma effect_submits_other i j :
  j <> i -> submits_for (startIndex BATCH_SIZE i) (trace (effect j)) = [].
Proof.
  intros Hne.
  destruct (submits_for (startIndex BATCH_SIZE i) (trace (effect j)))
    as [| ev l] eqn:E; [reflexivity |].
  exfalso.
  assert (Hin : In ev (ev :: l)) by now left.
  rewrite <- E in Hin. unfold submits_for in Hin.
  apply filter_In in Hin. destruct Hin as (Hin & Hev).
  destruct ev as [| | s e gasLimit | | |]; try discriminate Hev.
  apply Z.eqb_eq in Hev. subst s.
  apply effect_trace_submit in Hin. destruct Hin as (Hs & _).
  unfold startIndex in Hs. apply Hne. nia.
Qed.

Lemma submits_for_app s l1 l2 :
  submits_for s (l1 ++ l2) = (submits_for s l1 ++ submits_for s l2)%list.
Proof. apply filter_app. Qed.

Lemma calls_submits_absent i l :
  ~ In i l -> submits_for (startIndex BATCH_SIZE i) (calls_of l) = [].
Proof.
  induction l as [| j l IH]; intros Hnot; simpl; [reflexivity |].
  rewrite submits_for_app, effect_submits_other, IH; auto.
  - intros Hin. apply Hnot. now right.
  - intros ->. apply Hnot. now left.
Qed.

Lemma calls_submits_once i l :
  NoDup l -> In i l ->
  submits_for (startIndex BATCH_SIZE i) (calls_of l)
  = submits_for (startIndex BATCH_SIZE i) (trace (effect i)).
Proof.
  induction l as [| j l IH]; intros Hnd Hin; [destruct Hin |].
  inversion Hnd as [| ? ? Hnotin Hnd']; subst. simpl.
  rewrite submits_for_app.
  destruct (Z.eq_dec j i) as [-> | Hne].
  - rewrite calls_submits_absent by exact Hnotin. now rewrite app_nil_r.
  - rewrite effect_submits_other by exact Hne. simpl.
    apply IH; [exact Hnd' |]. destruct Hin; [contradiction | assumption].
Qed.

Lemma effect_pauses i :
  pauses (trace (effect i))
  = if confirmed BATCH_SIZE c totalUsers i && (i <? totalBatches - 1)
    then [5000] else [].
Proof. unfold pauses. answers i; reflexivity. Qed.

Lemma calls_pauses l :
  pauses (calls_of l)
  = map (fun _ => 5000)
        (filter (fun i => confirmed BATCH_SIZE c totalUsers i
                          && (i <? totalBatches - 1)) l).
Proof.
  induction l as [| i l IH]; simpl; [reflexivity |].
  unfold pauses in *. rewrite flat_map_app.
  fold (pauses (trace (effect i))). rewrite effect_pauses, IH.
  destruct (confirmed BATCH_SIZE c totalUsers i && (i <? totalBatches - 1));
    reflexivity.
Qed.

(** The calls of one batch are those its answers decide. *)
Lemma effect_expected_calls i :
  trace (effect i) = expected_calls BATCH_SIZE c totalUsers totalBatches i.
Proof. unfold expected_calls. answers i; reflexivity. Qed.
End SubmissionFacts.

Lemma batch_indices_NoDup n : NoDup (Orchestrator.batch_indices n).
Proof.
  unfold Orchestrator.batch_indices.
  generalize (seq_NoDup (Z.to_nat n) 0). generalize (seq 0 (Z.to_nat n)).
  induction l as [| a l IH]; intros Hnd; simpl; [constructor |].
  inversion Hnd as [| ? ? Hnotin Hnd']; subst.
  constructor; [| apply IH; exact Hnd'].
  rewrite in_map_iff. intros (b & Hb & Hin).
  apply Nat2Z.inj in Hb. subst b. contradiction.
Qed.

Lemma batch_indices_last n :
  0 < n ->
  Orchestrator.batch_indices n
  = (Orchestrator.batch_indices (n - 1) ++ [n - 1])%list.
Proof.
  intros Hn. unfold Orchestrator.batch_indices.
  replace (Z.to_nat n) with (S (Z.to_nat (n - 1))) by lia.
  rewrite seq_S, map_app. simpl. do 2 f_equal. lia.
Qed.

Section RunOrder.
Import Orchestrator Outcome Pacing.
Variable BATCH_SIZE : Z.
Variable g : globals.
Variable c : contract_api.
Variable totalUsers : Z.
Hypothesis Hprovider : provider g = true.
Hypothesis Hwallet : wallet g = true.
Hypothesis Hcontract : contract g = Some c.
Hypothesis Hcount : getUSersLengh c = Resolved totalUsers.
Hypothesis Hsome : 0 < totalUsers.
Hypothesis Hsize : 0 < BATCH_SIZE.

Local Abbreviation run := (distributeRewardsInBatches BATCH_SIZE g).
Local Abbreviation tb := (total_batches BATCH_SIZE totalUsers).
Local Abbreviation idx := (batch_indices tb).
Local Abbreviation effect := (batch_effect BATCH_SIZE c totalUsers tb).

Lemma run_trace_calls :
  trace (snd run)
  = EvGetUsersLength
      :: flat_map (fun i => trace (effect i)) idx
      ++ [EvLogStatus (log_status (count_success BATCH_SIZE c totalUsers idx)
                                  tb)].
Proof.
  rewrite (@run_summary_here BATCH_SIZE g c totalUsers Hprovider Hwallet
                             Hcontract Hcount Hsome).
  reflexivity.
Qed.

(** X11. In a run that gets past the count query, each planned range
    gets at most one submission, never a second one: exactly one, with the
    gas limit computed from its estimate, when its gas estimation resolves,
    and none otherwise. *)
Theorem one_submission_per_range (i : Z) :
  0 <= i < tb ->
  let subs := submits_for (startIndex BATCH_SIZE i) (trace (snd run)) in
  (List.length subs <= 1)%nat /\
  subs = match estimateGas c (startIndex BATCH_SIZE i)
                           (endIndex BATCH_SIZE totalUsers i) with
         | Resolved gasEstimate =>
             [EvSubmit (startIndex BATCH_SIZE i)
                       (endIndex BATCH_SIZE totalUsers i)
                       (gas_limit gasEstimate)]
         | _ => []
         end.
Proof.
  intros Hi subs.
  assert (Hsubs : subs
                  = submits_for (startIndex BATCH_SIZE i) (trace (effect i))).
  { subst subs. rewrite run_trace_calls.
    change (EvGetUsersLength :: ?l) with ([EvGetUsersLength] ++ l)%list.
    rewrite !submits_for_app. simpl. rewrite app_nil_r.
    apply calls_submits_once;
      [exact Hsize | apply batch_indices_NoDup
       | apply batch_indices_In; exact Hi]. }
  rewrite Hsubs, effect_submits.
  destruct (estimateGas c (startIndex BATCH_SIZE i)
                        (endIndex BATCH_SIZE totalUsers i));
    split; simpl; auto.
Qed.

(** X12. In a run that gets past the count query, the pauses are all of
    5000 ms and there is one for each batch, other than the last, whose
    receipt comes back (whatever its status); a batch whose estimation,
    submission or confirmation fails or times out is followed by no pause.
    So there are at most [totalBatches - 1] pauses. *)
Theorem pauses_follow_confirmed_batches :
  pauses (trace (snd run))
  = map (fun _ => 5000)
        (filter (confirmed BATCH_SIZE c totalUsers) (batch_indices (tb - 1)))
  /\ Z.of_nat (List.length (pauses (trace (snd run)))) <= tb - 1.
Proof.
  assert (Hpos : 0 < tb) by (apply Math_ceil_div_pos; assumption).
  assert (Hp : pauses (trace (snd run))
               = map (fun _ => 5000)
                     (filter (confirmed BATCH_SIZE c totalUsers)
                             (batch_indices (tb - 1)))).
  { rewrite run_trace_calls. unfold pauses at 1.
    change (EvGetUsersLength :: ?l) with ([EvGetUsersLength] ++ l)%list.
    rewrite !flat_map_app. simpl. rewrite app_nil_r.
    fold (pauses (flat_map (fun i => trace (effect i)) idx)).
    rewrite calls_pauses. f_equal.
    rewrite (batch_indices_last Hpos), filter_app. simpl.
    rewrite Z.ltb_irrefl, andb_false_r, app_nil_r.
    apply filter_ext_in. intros i Hi. apply batch_indices_In in Hi.
    destruct (Z.ltb_spec i (tb - 1)); [apply andb_true_r | lia]. }
  split; [exact Hp |].
  rewrite Hp, length_map.
  pose proof (filter_length_le (confirmed BATCH_SIZE c totalUsers)
                               (batch_indices (tb - 1))) as Hle.
  rewrite batch_indices_length in Hle. lia.
Qed.

(** X13. In a run that gets past the count query, the calls are exactly
    these, in this order: the count query; then, batch after batch in
    ascending order and without interleaving, the gas estimation of the
    batch, its submission (with the limit computed from the estimate) if the
    estimation resolved, the wait for the confirmation of the transaction
    returned if the submission resolved, and the 5000 ms pause if a receipt
    came back and the batch is not the last - so the calls of a batch stop
    at its first step that fails; then the closing log, with the status
    computed from the summary's [successCount] and [totalBatches]. *)
Theorem calls_are_sequential :
  exists s,
    fst run = Normal (Summary s) /\
    trace (snd run)
    = EvGetUsersLength
        :: List.concat (map (expected_calls BATCH_SIZE c totalUsers tb) idx)
        ++ [EvLogStatus (log_status (successCount s) (totalBatches s))].
Proof.
  rewrite (@run_summary_here BATCH_SIZE g c totalUsers Hprovider Hwallet
                             Hcontract Hcount Hsome).
  eexists. split; [reflexivity |]. cbn [snd trace successCount totalBatches].
  rewrite flat_map_concat_map. do 3 f_equal.
  apply map_ext. intros i. apply effect_expected_calls.
Qed.
End RunOrder.

(* ===================================================================== *)
(** ** The endpoints *)
(* ===================================================================== *)

Section EndpointFacts.
Import Orchestrator Outcome Http.
Variable BATCH_SIZE : Z.
Variable g : globals.

Local Abbreviation run := (distributeRewardsInBatches BATCH_SIZE g).

Lemma web3_missing_false :
  web3_missing g = false
  <-> provider g = true /\ wallet g = true /\ exists c, contract g = Some c.
Proof.
  unfold web3_missing.
  destruct (provider g), (contract g) as [c |], (wallet g); simpl;
    split; try discriminate; try (intros (? & ? & ? & ?); discriminate);
    try (intros (? & ? & ?); discriminate).
  - intros _. eauto.
  - reflexivity.
Qed.

(** What a run returns once the globals are set. *)
Lemma run_result_cases :
  web3_missing g = false ->
  exists result,
    fst run = Normal result /\
    (result = NoUsers \/
     (exists m, result = Fatal ("Contract connection failed: " ++ m)) \/
     (exists s, result = Summary s /\
                success s = (successCount s >? 0) /\
                message s
                = toString (successCount s) ++ "/"
                    ++ toString (totalBatches s)
                    ++ " batches completed successfully")).
Proof.
  intros Hm. apply web3_missing_false in Hm.
  destruct Hm as (Hp & Hw & c & Hc).
  destruct (getUSersLengh c) as [totalUsers | m | ] eqn:Hcount.
  - destruct (Z.eq_dec totalUsers 0) as [-> | Hnz].
    + rewrite (@run_no_users BATCH_SIZE g c Hp Hw Hc Hcount).
      eexists. split; [reflexivity | now left].
    + rewrite (@run_summary BATCH_SIZE g c Hp Hw Hc totalUsers Hcount Hnz).
      eexists. split; [reflexivity |]. right. right.
      eexists. split; [reflexivity |]. split; reflexivity.
  - rewrite (@run_count_failed BATCH_SIZE g c Hp Hw Hc m)
      by (rewrite Hcount; reflexivity).
    eexists. split; [reflexivity |]. right. left. now exists m.
  - rewrite (@run_count_failed BATCH_SIZE g c Hp Hw Hc "Contract call timeout")
      by (rewrite Hcount; reflexivity).
    eexists. split; [reflexivity |]. right. left. now eexists.
Qed.

(** X14. [POST /distribute-now] answers 503, without any call to the
    contract, exactly when one of the three globals is unset. Otherwise it
    runs the distribution, answers 200 when the result has [success] true
    and 500 when it has not, and always carries the result as [details];
    the run it starts never stops at the connection check. *)
Theorem distribute_now_statuses :
  let r := distribute_now BATCH_SIZE g in
  (web3_missing g = true ->
   fst r = mkResponse 503 false None (Some "Web3 connection not available")
                      None /\
   trace (snd r) = []) /\
  (web3_missing g = false ->
   exists result,
     fst run = Normal result /\
     snd r = snd run /\
     body_details (fst r) = Some result /\
     body_success (fst r) = result_success result /\
     (result_success result = true -> code (fst r) = 200) /\
     (result_success result = false -> code (fst r) = 500) /\
     result <> Fatal "Web3 not initialized. Cannot proceed with distribution.").
Proof.
  cbv zeta. unfold distribute_now. split; intros Hm; rewrite Hm.
  - split; reflexivity.
  - destruct (run_result_cases Hm) as (result & Hrun & Hcases).
    exists result. destruct run as [[r' | m] st]; simpl in Hrun;
      [| discriminate].
    injection Hrun as ->.
    split; [reflexivity |].
    destruct (result_success result) eqn:Hs; simpl;
      repeat split; try reflexivity; try discriminate;
      destruct Hcases as [-> | [(m & ->) | (s & -> & _)]]; discriminate.
Qed.

(** X15. [POST /trigger-distribution] answers as [POST /distribute-now]
    does - same status, same [success], same [error], same [details], same
    calls to the contract - except for the message of a 200 answer, which is
    always the run's own message ("No users to process", or the count of
    completed batches): the fallback text of the handler is never used. *)
Theorem trigger_distribution_message :
  let t := trigger_distribution BATCH_SIZE g in
  let n := distribute_now BATCH_SIZE g in
  code (fst t) = code (fst n) /\
  body_success (fst t) = body_success (fst n) /\
  body_error (fst t) = body_error (fst n) /\
  body_details (fst t) = body_details (fst n) /\
  snd t = snd n /\
  (code (fst t) = 200 ->
   exists result,
     fst run = Normal result /\
     body_message (fst t) = Some (result_message result) /\
     (result = NoUsers \/
      exists s, result = Summary s /\
                result_message result
                = toString (successCount s) ++ "/"
                    ++ toString (totalBatches s)
                    ++ " batches completed successfully")).
Proof.
  cbv zeta. unfold trigger_distribution, distribute_now.
  destruct (web3_missing g) eqn:Hm;
    [repeat split; try reflexivity; simpl; discriminate |].
  destruct (run_result_cases Hm) as (result & Hrun & Hcases).
  destruct run as [[r' | m] st]; simpl in Hrun; [| discriminate].
  injection Hrun as ->.
  destruct Hcases as [-> | [(m & ->) | (s & -> & Hsucc & Hmsg)]]; simpl.
  - repeat split. intros _. exists NoUsers.
    repeat split. now left.
  - repeat split. discriminate.
  - destruct (success s) eqn:Hs; simpl; repeat split; try discriminate.
    intros _. exists (Summary s). split; [reflexivity |].
    split; [| right; exists s; split; [reflexivity | exact Hmsg]].
    simpl. rewrite Hmsg.
    destruct (toString (successCount s)); reflexivity.
Qed.
End EndpointFacts.

Lemma distribute_now_statuses_witness :
  fst (Http.distribute_now 100 Scenario.disconnected)
  = Http.mkResponse 503 false None (Some "Web3 connection not available") None.
Proof.
  apply (proj1 (@distribute_now_statuses 100 Scenario.disconnected)).
  reflexivity.
Defined.

Lemma trigger_distribution_message_witness :
  exists result,
    fst (Orchestrator.distributeRewardsInBatches
           100 (Scenario.connected (Scenario.contract_rejecting 250 100)))
    = Normal result /\
    Http.body_message
      (fst (Http.trigger_distribution
              100 (Scenario.connected (Scenario.contract_rejecting 250 100))))
    = Some (Http.result_message result).
Proof.
  destruct (@trigger_distribution_message
              100 (Scenario.connected (Scenario.contract_rejecting 250 100)))
    as (_ & _ & _ & _ & _ & H200).
  destruct (H200 eq_refl) as (result & Hrun & Hmsg & _).
  exists result. split; assumption.
Defined.

Section EndpointBatches.
Import Orchestrator Outcome Http.
Variable BATCH_SIZE : Z.
Variable g : globals.
Variable c : contract_api.
Variable totalUsers : Z.
Hypothesis Hprovider : provider g = true.
Hypothesis Hwallet : wallet g = true.
Hypothesis Hcontract : contract g = Some c.
Hypothesis Hcount : getUSersLengh c = Resolved totalUsers.
Hypothesis Hsome : 0 < totalUsers.
Hypothesis Hsize : 0 < BATCH_SIZE.

Local Abbreviation tb := (total_batches BATCH_SIZE totalUsers).
Local Abbreviation idx := (batch_indices tb).
Local Abbreviation outcome_at := (batch_outcome BATCH_SIZE c totalUsers).

(** X16. With users to process, [POST /distribute-now] answers 200 as
    soon as one batch succeeded, however many failed; it answers 500 only
    when every batch failed, and then with the error "Distribution failed"
    and a summary counting no success and [totalBatches] failures. *)
Theorem distribute_now_succeeds_on_one_batch :
  let r := fst (distribute_now BATCH_SIZE g) in
  (code r = 200 <-> exists i, In i idx /\ outcome_at i = Success) /\
  (code r = 500
   <-> forall i, In i idx -> exists m, outcome_at i = Failed m) /\
  (code r = 500 ->
   body_error r = Some "Distribution failed" /\
   exists s, body_details r = Some (Summary s) /\
             successCount s = 0 /\ failureCount s = tb).
Proof.
  cbv zeta. unfold distribute_now.
  assert (Hm : web3_missing g = false)
    by (unfold web3_missing; now rewrite Hprovider, Hwallet, Hcontract).
  rewrite Hm.
  rewrite (@run_summary_here BATCH_SIZE g c totalUsers Hprovider Hwallet
                             Hcontract Hcount Hsome).
  cbn [result_success success].
  pose proof (count_success_nonneg BATCH_SIZE c totalUsers idx) as Hnn.
  pose proof (count_success_none BATCH_SIZE c totalUsers idx) as Hnone.
  pose proof (count_split BATCH_SIZE c totalUsers idx) as Hsplit.
  pose proof (@idx_length BATCH_SIZE totalUsers Hsome Hsize) as Hlen.
  assert (Hex : 0 < count_success BATCH_SIZE c totalUsers idx
                <-> exists i, In i idx /\ outcome_at i = Success).
  { unfold count_success.
    replace 0 with (Z.of_nat 0) by reflexivity.
    rewrite <- Nat2Z.inj_lt, filter_some.
    split; intros (i & Hi & Ho); exists i; split; try exact Hi.
    - destruct (outcome_at i); [reflexivity | discriminate].
    - now rewrite Ho. }
  destruct (Z.gtb_spec (count_success BATCH_SIZE c totalUsers idx) 0)
    as [Hgt | Hle]; simpl.
  - split; [split; [intros _; apply Hex; lia | reflexivity] |].
    split; [| discriminate].
    split; [discriminate |]. intros Hall. apply Hnone in Hall. lia.
  - split; [split; [discriminate | intros H; apply Hex in H; lia] |].
    split; [split; [intros _; apply Hnone; lia | reflexivity] |].
    intros _. split; [reflexivity |].
    eexists. split; [reflexivity |]. simpl. lia.
Qed.
End EndpointBatches.

Section RewardsFacts.
Import Rewards.
Variable formatEther : Z -> string.
Variable g : Orchestrator.globals.
Variable api : rewards_api.
Variable userAddress : string.

Local Abbreviation entry :=
  (fun (i c : Z) => mkStake i (toString c) (formatEther c)).
Local Abbreviation asked :=
  (fun i : Z => EvCalculateClaimAbles userAddress i).

(** The loop when every call succeeds: [claims] lists the amounts. *)
Lemma collect_all (indices : list Z) : forall claims stakes calls,
  Forall2 (fun i c => calculateClaimAbles api userAddress i = Normal c)
          indices claims ->
  collect formatEther api userAddress indices stakes calls
  = (Normal (stakes ++ map (fun ic => entry (fst ic) (snd ic))
                           (combine indices claims))%list,
     (calls ++ map asked indices)%list).
Proof.
  induction indices as [| i indices IH]; intros claims stakes calls Hall;
    inversion Hall as [| ? c ? claims' Hi Hrest]; subst; simpl.
  - now rewrite !app_nil_r.
  - rewrite Hi, (IH claims' _ _ Hrest), <- !app_assoc. reflexivity.
Qed.

(** The loop when the call for [i] is the first to fail. *)
Lemma collect_fails (before : list Z) : forall i after m stakes calls,
  (forall j, In j before ->
             exists c, calculateClaimAbles api userAddress j = Normal c) ->
  calculateClaimAbles api userAddress i = Throw m ->
  collect formatEther api userAddress (before ++ i :: after) stakes calls
  = (Throw m, (calls ++ map asked before ++ [asked i])%list).
Proof.
  induction before as [| j before IH]; intros i after m stakes calls Hok Hi;
    simpl.
  - now rewrite Hi.
  - destruct (Hok j (or_introl eq_refl)) as (c & ->).
    rewrite (IH i after m) by (auto; intros k Hk; apply Hok; now right).
    now rewrite <- app_assoc.
Qed.

Lemma claims_exist (indices : list Z) :
  (forall i, In i indices ->
             exists c, calculateClaimAbles api userAddress i = Normal c) ->
  exists claims,
    Forall2 (fun i c => calculateClaimAbles api userAddress i = Normal c)
            indices claims.
Proof.
  induction indices as [| i indices IH]; intros Hok.
  - exists []. constructor.
  - destruct (Hok i (or_introl eq_refl)) as (c & Hc).
    destruct IH as (claims & Hall); [intros j Hj; apply Hok; now right |].
    exists (c :: claims). now constructor.
Qed.

Lemma nth_error_entries (indices : list Z) : forall claims n i,
  Forall2 (fun i c => calculateClaimAbles api userAddress i = Normal c)
          indices claims ->
  nth_error indices n = Some i ->
  exists c,
    calculateClaimAbles api userAddress i = Normal c /\
    nth_error (map (fun ic => entry (fst ic) (snd ic))
                   (combine indices claims)) n
    = Some (entry i c).
Proof.
  induction indices as [| j indices IH]; intros claims n i Hall Hn;
    [destruct n; discriminate |].
  inversion Hall as [| ? c ? claims' Hj Hrest]; subst.
  destruct n as [| n]; simpl in *.
  - injection Hn as <-. now exists c.
  - apply (IH claims' n i Hrest Hn).
Qed.

Variable record : user_record.
Hypothesis Hconnected : Http.web3_missing g = false.
Hypothesis Hrecord : userRecord api userAddress = Normal record.
Hypothesis Hregistered : isRegistered record = true.

Local Abbreviation answer := (user_rewards formatEther g api userAddress).

(** X17. For a registered user whose claimable amounts can all be read,
    [GET /user-rewards/:address] answers 200 with one element of [stakes]
    per stake, in order: element [i] has [stakeIndex] [i] and the amount
    returned by [calculateClaimAbles(address, i)], as text and formatted.
    The calls made are the record query, then one amount query per stake,
    in ascending order. *)
Theorem user_rewards_lists_every_stake :
  (forall i, 0 <= i < stakeCount record ->
             exists c, calculateClaimAbles api userAddress i = Normal c) ->
  exists stakes,
    fst answer
    = Rewards userAddress
              (toString (totalInvestment record))
              (toString (totalWithdrawn record))
              (toString (stakeCount record))
              stakes /\
    code (fst answer) = 200 /\
    List.length stakes = Z.to_nat (stakeCount record) /\
    (forall i, 0 <= i < stakeCount record ->
       exists c,
         calculateClaimAbles api userAddress i = Normal c /\
         nth_error stakes (Z.to_nat i)
         = Some (mkStake i (toString c) (formatEther c))) /\
    snd answer
    = EvUserRecord userAddress
        :: map (EvCalculateClaimAbles userAddress)
               (Orchestrator.batch_indices (stakeCount record)).
Proof.
  intros Hok.
  destruct (claims_exist (Orchestrator.batch_indices (stakeCount record)))
    as (claims & Hall);
    [intros i Hi; apply Hok; now apply batch_indices_In |].
  unfold user_rewards.
  rewrite Hconnected, Hrecord, Hregistered. simpl.
  rewrite (collect_all [] [EvUserRecord userAddress] Hall). simpl.
  eexists. split; [reflexivity |]. split; [reflexivity |].
  split; [| split; [| reflexivity]].
  - rewrite length_map, length_combine.
    rewrite <- (Forall2_length Hall), Nat.min_id.
    apply batch_indices_length.
  - intros i Hi.
    apply (nth_error_entries _ Hall), batch_indices_nth. exact Hi.
Qed.

(** X18. For a registered user, when the amount query fails for stake
    [i] after succeeding for all the stakes before it,
    [GET /user-rewards/:address] answers 500 with that error and no part of
    the list; the amount queries made are those for the stakes [0] to [i],
    and none for a later stake. *)
Theorem user_rewards_stops_at_first_failure (i : Z) (m : string) :
  0 <= i < stakeCount record ->
  (forall j, 0 <= j < i ->
             exists c, calculateClaimAbles api userAddress j = Normal c) ->
  calculateClaimAbles api userAddress i = Throw m ->
  answer
  = (Failed m,
     EvUserRecord userAddress
       :: map (EvCalculateClaimAbles userAddress)
              (Orchestrator.batch_indices (i + 1))) /\
  code (fst answer) = 500.
Proof.
  intros Hi Hbefore Hfail.
  assert (Hsplit : exists after,
             Orchestrator.batch_indices (stakeCount record)
             = (Orchestrator.batch_indices i ++ i :: after)%list).
  { unfold Orchestrator.batch_indices.
    replace (Z.to_nat (stakeCount record))
      with (Z.to_nat i + S (Z.to_nat (stakeCount record) - Z.to_nat i - 1))%nat
      by lia.
    rewrite seq_app, map_app. simpl.
    rewrite Z2Nat.id by lia. now eexists. }
  destruct Hsplit as (after & Hsplit).
  unfold user_rewards.
  rewrite Hconnected, Hrecord, Hregistered, Hsplit. simpl.
  rewrite (@collect_fails (Orchestrator.batch_indices i) i after m)
    by (auto; intros j Hj; apply Hbefore; now apply batch_indices_In).
  rewrite (@batch_indices_last (i + 1)) by lia.
  replace (i + 1 - 1) with i by lia.
  rewrite map_app. simpl. split; reflexivity.
Qed.
End RewardsFacts.

Lemma user_rewards_lists_every_stake_witness :
  exists stakes,
    fst (Rewards.user_rewards
           RewardsScenario.whole_ether
           (Scenario.connected (Scenario.contract_rejecting 250 100))
           (RewardsScenario.three_stakes (-1)) "0xuser")
    = Rewards.Rewards "0xuser" (toString 5000) (toString 1200) (toString 3)
                      stakes /\
    List.length stakes = Z.to_nat 3.
Proof.
  destruct (@user_rewards_lists_every_stake
              RewardsScenario.whole_ether
              (Scenario.connected (Scenario.contract_rejecting 250 100))
              (RewardsScenario.three_stakes (-1)) "0xuser"
              (Rewards.mkUserRecord 5000 1200 true 3)
              eq_refl eq_refl eq_refl)
    as (stakes & Hanswer & _ & Hlen & _).
  - intros i Hi. simpl.
    destruct (Z.eqb_spec i (-1)); [lia | now eexists].
  - exists stakes. split; assumption.
Defined.

Lemma user_rewards_stops_at_first_failure_witness :
  fst (Rewards.user_rewards
         RewardsScenario.whole_ether
         (Scenario.connected (Scenario.contract_rejecting 250 100))
         (RewardsScenario.three_stakes 1) "0xuser")
  = Rewards.Failed "execution reverted".
Proof.
  refine (f_equal fst
            (proj1 (@user_rewards_stops_at_first_failure
                      RewardsScenario.whole_ether
                      (Scenario.connected (Scenario.contract_rejecting 250 100))
                      (RewardsScenario.three_stakes 1) "0xuser"
                      (Rewards.mkUserRecord 5000 1200 true 3)
                      eq_refl eq_refl eq_refl
                      1 "execution reverted" _ _ eq_refl))).
  - simpl. lia.
  - intros j Hj. assert (j = 0) by lia. subst j. now eexists.
Defined.

Section ConcreteOrder.
Import Orchestrator Outcome Pacing Scenario.

Lemma one_submission_per_range_witness :
  (List.length
     (submits_for (startIndex 100 1)
                  (trace (snd (distributeRewardsInBatches
                                 100 (connected (contract_rejecting 250 100))))))
   <= 1)%nat.
Proof.
  apply (@one_submission_per_range
           100 (connected (contract_rejecting 250 100))
           (contract_rejecting 250 100) 250
           eq_refl eq_refl eq_refl eq_refl eq_refl eq_refl
           1 (conj Z.le_0_1 eq_refl)).
Defined.

Lemma pauses_follow_confirmed_batches_witness :
  Z.of_nat
    (List.length
       (pauses (trace (snd (distributeRewardsInBatches
                              100 (connected (contract_rejecting 250 100)))))))
  <= total_batches 100 250 - 1.
Proof.
  apply (@pauses_follow_confirmed_batches
           100 (connected (contract_rejecting 250 100))
           (contract_rejecting 250 100) 250
           eq_refl eq_refl eq_refl eq_refl eq_refl eq_refl).
Defined.

Lemma calls_are_sequential_witness :
  exists s,
    fst (distributeRewardsInBatches
           100 (connected (contract_rejecting 250 100)))
    = Normal (Summary s) /\
    trace (snd (distributeRewardsInBatches
                  100 (connected (contract_rejecting 250 100))))
    = EvGetUsersLength
        :: List.concat
             (map (expected_calls 100 (contract_rejecting 250 100) 250
                                  (total_batches 100 250))
                  (batch_indices (total_batches 100 250)))
        ++ [EvLogStatus (log_status (successCount s) (totalBatches s))].
Proof.
  apply (@calls_are_sequential
           100 (connected (contract_rejecting 250 100))
           (contract_rejecting 250 100) 250
           eq_refl eq_refl eq_refl eq_refl eq_refl).
Defined.

Lemma distribute_now_succeeds_on_one_batch_witness :
  Http.code
    (fst (Http.distribute_now 100 (connected (contract_rejecting 250 100))))
  = 200.
Proof.
  apply (proj1 (@distribute_now_succeeds_on_one_batch
                  100 (connected (contract_rejecting 250 100))
                  (contract_rejecting 250 100) 250
                  eq_refl eq_refl eq_refl eq_refl eq_refl eq_refl)).
  exists 0. split; [now left | reflexivity].
Defined.
End ConcreteOrder.
